(** * Comments dashboard: edit overlay and view derivation

    A shallow embedding of [App.tsx] (the [CommentsApp] component): the
    startup fetch and overlay merge ([fetchData]), the derived view
    ([filteredComments], [paginatedComments], [totalPages], the page window of
    the navigation bar), and the handlers that change the state ([saveEdit],
    [goToPage], the search box).

    Conventions.
    - A JavaScript string is a [string]: a sequence of code units below 256.
      On that range [trim], [toLowerCase] and [includes] below are the methods
      of [String.prototype].
    - A [number] that the program uses as an integer (an identifier, a page
      number) is a [Z]; an array is a [list].
    - [localStorage] holds text; the two functions of the host's [JSON] object
      are parameters of the development, read at the type the program uses
      their result at. *)

From Stdlib Require Import ZArith Lia Bool Ascii String List.
From stdpp Require Import base option list gmap strings pretty.

Local Open Scope string_scope.
Local Open Scope Z_scope.

(** ** Strings *)

Module JsString.

(** [WhiteSpace] and [LineTerminator] code points below 256: TAB, LF, VT,
    FF, CR, SP and NBSP. *)
Definition isWhiteSpace (c : ascii) : bool :=
  let n := N_of_ascii c in
  ((9 <=? n) && (n <=? 13) || (n =? 32) || (n =? 160))%N.

(** Lower-case mapping of one code unit: [A]-[Z] and the upper-case letters
    of the Latin-1 supplement (U+00C0-U+00DE without U+00D7) move up by 32. *)
Definition lowerChar (c : ascii) : ascii :=
  let n := N_of_ascii c in
  if ((65 <=? n) && (n <=? 90)
      || (192 <=? n) && (n <=? 222) && negb (n =? 215))%N
  then ascii_of_N (n + 32) else c.

Fixpoint toLowerCase (s : string) : string :=
  match s with
  | EmptyString => EmptyString
  | String c s' => String (lowerChar c) (toLowerCase s')
  end.

Fixpoint trimStart (s : string) : string :=
  match s with
  | EmptyString => EmptyString
  | String c s' => if isWhiteSpace c then trimStart s' else s
  end.

Fixpoint trimEnd (s : string) : string :=
  match s with
  | EmptyString => EmptyString
  | String c s' =>
      match trimEnd s' with
      | EmptyString => if isWhiteSpace c then EmptyString else String c EmptyString
      | r => String c r
      end
  end.

Definition trim (s : string) : string := trimEnd (trimStart s).

Fixpoint startsWith (s p : string) {struct p} : bool :=
  match p, s with
  | EmptyString, _ => true
  | String _ _, EmptyString => false
  | String b p', String a s' => Ascii.eqb a b && startsWith s' p'
  end.

(** [s.includes(p)]: [p] occurs in [s] at some position. *)
Fixpoint includes (s p : string) : bool :=
  startsWith s p ||
  match s with
  | EmptyString => false
  | String _ s' => includes s' p
  end.

(** [s === ""], and its negation, the truthiness of a string. *)
Definition isEmpty (s : string) : bool :=
  match s with EmptyString => true | String _ _ => false end.

Definition truthy (s : string) : bool := negb (isEmpty s).

End JsString.

(** ** Data model *)

Module Comment.
Record t : Type := mk
  { id : Z; name : string; email : string; body : string; postId : Z }.
End Comment.

Module Post.
Record t : Type := mk { id : Z; title : string }.
End Post.

Definition ITEMS_PER_PAGE : Z := 10.

(** ** The derived view *)

Definition matchesSearch (searchLower : string) (comment : Comment.t) : bool :=
  JsString.includes (JsString.toLowerCase (Comment.email comment)) searchLower
  || JsString.includes (JsString.toLowerCase (Comment.name comment)) searchLower
  || JsString.includes (JsString.toLowerCase (Comment.body comment)) searchLower.

Definition filteredComments (searchTerm : string) (comments : list Comment.t)
  : list Comment.t :=
  if negb (JsString.truthy (JsString.trim searchTerm)) then comments
  else
    let searchLower := JsString.toLowerCase searchTerm in
    List.filter (matchesSearch searchLower) comments.

(** [Array.prototype.slice(start, end)]: a negative index counts from the end
    of the array, and both indices are clamped to the array. *)
Definition relativeIndex (len i : Z) : Z :=
  if i <? 0 then Z.max (len + i) 0 else Z.min i len.

Definition slice {A : Type} (l : list A) (start final : Z) : list A :=
  let len := Z.of_nat (length l) in
  let k := relativeIndex len start in
  let e := relativeIndex len final in
  take (Z.to_nat (e - k)) (drop (Z.to_nat k) l).

Definition paginatedComments (currentPage : Z) (filtered : list Comment.t)
  : list Comment.t :=
  let startIndex := (currentPage - 1) * ITEMS_PER_PAGE in
  slice filtered startIndex (startIndex + ITEMS_PER_PAGE).

(** [Math.ceil(n / d)] for integers [n] and [d > 0]. *)
Definition ceilDiv (n d : Z) : Z := - ((- n) / d).

Definition totalPages (filtered : list Comment.t) : Z :=
  ceilDiv (Z.of_nat (length filtered)) ITEMS_PER_PAGE.

(** The first and last page number of the navigation bar. *)
Definition pageRange (totalPages currentPage : Z) : Z * Z :=
  let maxVisiblePages := 5 in
  let startPage := 1 in
  let endPage := Z.min maxVisiblePages totalPages in
  if totalPages >? maxVisiblePages then
    if currentPage <=? 3 then (1, maxVisiblePages)
    else if currentPage >=? totalPages - 2
         then (totalPages - maxVisiblePages + 1, totalPages)
         else (currentPage - 2, currentPage + 2)
  else (startPage, endPage).

(** [Array.from({ length: endPage - startPage + 1 }, (_, i) => startPage + i)]:
    the page numbers of the buttons, in order; a length below 0 gives no
    button. *)
Definition pageWindow (totalPages currentPage : Z) : list Z :=
  let '(startPage, endPage) := pageRange totalPages currentPage in
  List.map (fun i => startPage + Z.of_nat i)
           (seq 0 (Z.to_nat (endPage - startPage + 1))).

(** ** The edit overlay *)

Module Field.
Inductive t : Type := name | body.
End Field.

(** An entry of the overlay: the saved values of the two editable fields,
    each of them optional. *)
Module Edit.
Record t : Type := mk { name : option string; body : option string }.

Definition empty : t := mk None None.

(** [{ ...savedEdit, [field]: value }] *)
Definition set (field : Field.t) (value : string) (savedEdit : t) : t :=
  match field with
  | Field.name => mk (Some value) (body savedEdit)
  | Field.body => mk (name savedEdit) (Some value)
  end.

Definition get (field : Field.t) (savedEdit : t) : option string :=
  match field with
  | Field.name => name savedEdit
  | Field.body => body savedEdit
  end.
End Edit.

(** The overlay maps the identifier of a comment to its entry. *)
Abbreviation Edits := (gmap Z Edit.t).

(** [saved || fetched], for a [saved] that is a string or [undefined]: the
    empty string is falsy. *)
Definition orElse (saved : option string) (fetched : string) : string :=
  match saved with
  | Some s => if JsString.truthy s then s else fetched
  | None => fetched
  end.

Definition applyEdit (savedEdit : Edit.t) (comment : Comment.t) : Comment.t :=
  Comment.mk (Comment.id comment)
             (orElse (Edit.name savedEdit) (Comment.name comment))
             (Comment.email comment)
             (orElse (Edit.body savedEdit) (Comment.body comment))
             (Comment.postId comment).

Definition commentsWithEdits (edits : Edits) (commentsData : list Comment.t)
  : list Comment.t :=
  List.map (fun comment =>
              match edits !! Comment.id comment with
              | Some savedEdit => applyEdit savedEdit comment
              | None => comment
              end) commentsData.

(** [{ ...comment, [field]: value }] *)
Definition setCommentField (field : Field.t) (value : string) (comment : Comment.t)
  : Comment.t :=
  match field with
  | Field.name =>
      Comment.mk (Comment.id comment) value (Comment.email comment)
                 (Comment.body comment) (Comment.postId comment)
  | Field.body =>
      Comment.mk (Comment.id comment) (Comment.name comment)
                 (Comment.email comment) value (Comment.postId comment)
  end.

Definition getCommentField (field : Field.t) (comment : Comment.t) : string :=
  match field with
  | Field.name => Comment.name comment
  | Field.body => Comment.body comment
  end.

(** ** Component state and persisted storage *)

Module State.
Record t : Type := mk
  { comments : list Comment.t;
    posts : list Post.t;
    loading : bool;
    error : option string;
    searchTerm : string;
    currentPage : Z;
    editingCell : option (Z * Field.t);
    editValue : string }.

(** The state of the [useState] calls before the first render. *)
Definition initial : t := mk [] [] true None "" 1 None "".

Definition setComments (v : list Comment.t) (s : t) : t :=
  mk v (posts s) (loading s) (error s) (searchTerm s) (currentPage s)
     (editingCell s) (editValue s).
Definition setPosts (v : list Post.t) (s : t) : t :=
  mk (comments s) v (loading s) (error s) (searchTerm s) (currentPage s)
     (editingCell s) (editValue s).
Definition setLoading (v : bool) (s : t) : t :=
  mk (comments s) (posts s) v (error s) (searchTerm s) (currentPage s)
     (editingCell s) (editValue s).
Definition setError (v : option string) (s : t) : t :=
  mk (comments s) (posts s) (loading s) v (searchTerm s) (currentPage s)
     (editingCell s) (editValue s).
Definition setSearchTerm (v : string) (s : t) : t :=
  mk (comments s) (posts s) (loading s) (error s) v (currentPage s)
     (editingCell s) (editValue s).
Definition setCurrentPage (v : Z) (s : t) : t :=
  mk (comments s) (posts s) (loading s) (error s) (searchTerm s) v
     (editingCell s) (editValue s).
Definition setEditingCell (v : option (Z * Field.t)) (s : t) : t :=
  mk (comments s) (posts s) (loading s) (error s) (searchTerm s)
     (currentPage s) v (editValue s).
Definition setEditValue (v : string) (s : t) : t :=
  mk (comments s) (posts s) (loading s) (error s) (searchTerm s)
     (currentPage s) (editingCell s) v.
End State.

(** The [commentEdits] key of [localStorage]: the text it holds, if any, and
    the texts [setItem] has written, latest first. *)
Module Storage.
Record t : Type := mk { item : option string; writes : list string }.

Definition getItem (s : t) : option string := item s.

Definition setItem (text : string) (s : t) : t :=
  mk (Some text) (text :: writes s).
End Storage.

(** What one [fetch] of the startup gives: the promise rejects, or it resolves
    to a response with its [ok] flag and the outcome of [json()] on it
    ([None] when that promise rejects). *)
Inductive Fetch (A : Type) : Type :=
| Rejected
| Responded (ok : bool) (json : option A).
Arguments Rejected {A}.
Arguments Responded {A} ok json.

(** [await Promise.all([c, p])]: both responses, or a rejection. *)
Definition promiseAll {A B : Type} (c : Fetch A) (p : Fetch B)
  : option ((bool * option A) * (bool * option B)) :=
  match c, p with
  | Responded okc jc, Responded okp jp => Some ((okc, jc), (okp, jp))
  | _, _ => None
  end.

Definition loadError : string := "Failed to load data. Please try again.".

(** The host's [JSON] object, at the type the program uses it at: [parse]
    gives [None] when [JSON.parse] throws, and the overlay the text denotes
    otherwise. *)
Record Json : Type :=
  { parse : string -> option Edits;
    stringify : Edits -> string }.

(** What the program relies on: the text of the empty object parses to the
    empty overlay, and the text [stringify] gives for an overlay is not empty
    and parses back to that overlay. *)
Record JsonLaws (JSON : Json) : Prop :=
  { parse_empty_object : parse JSON "{}" = Some ∅;
    stringify_nonempty : forall edits, stringify JSON edits <> EmptyString;
    parse_stringify : forall edits, parse JSON (stringify JSON edits) = Some edits }.

(** [text || "{}"] and [text ? JSON.parse(text) : {}]: a missing item
    ([null]) and the empty text are falsy. *)
Definition orEmptyObject (text : option string) : string :=
  match text with
  | Some s => if JsString.truthy s then s else "{}"
  | None => "{}"
  end.

Definition parseOrEmpty (JSON : Json) (text : option string) : option Edits :=
  match text with
  | Some s => if JsString.truthy s then parse JSON s else Some ∅
  | None => Some ∅
  end.

(** ** Startup: [fetchData] *)

(** The body of the [try] block: [None] when it throws. *)
Definition fetchBody (JSON : Json)
    (commentsFetch : Fetch (list Comment.t)) (postsFetch : Fetch (list Post.t))
    (storage : Storage.t) : option (list Comment.t * list Post.t) :=
  '(commentsResponse, postsResponse) ← promiseAll commentsFetch postsFetch;
  if negb (fst commentsResponse) || negb (fst postsResponse) then None
  else
    commentsData ← snd commentsResponse;
    postsData ← snd postsResponse;
    let savedEdits := Storage.getItem storage in
    edits ← parseOrEmpty JSON savedEdits;
    Some (commentsWithEdits edits commentsData, postsData).

(** [try { ... } catch { setError(...) } finally { setLoading(false) }] *)
Definition fetchData (JSON : Json)
    (commentsFetch : Fetch (list Comment.t)) (postsFetch : Fetch (list Post.t))
    (storage : Storage.t) (st : State.t) : State.t :=
  let st := State.setLoading true st in
  let st :=
    match fetchBody JSON commentsFetch postsFetch storage with
    | Some (commentsWithEdits, postsData) =>
        State.setPosts postsData (State.setComments commentsWithEdits st)
    | None => State.setError (Some loadError) st
    end in
  State.setLoading false st.

(** ** Handlers *)

(** The search box calls [setSearchTerm]; the effect that depends on
    [searchTerm] runs after a render in which the term differs from the one
    of the previous render. *)
Definition searchTermEffect (previous : string) (st : State.t) : State.t :=
  if String.eqb previous (State.searchTerm st) then st
  else State.setCurrentPage 1 st.

Definition changeSearchTerm (value : string) (st : State.t) : State.t :=
  searchTermEffect (State.searchTerm st) (State.setSearchTerm value st).

Definition currentTotalPages (st : State.t) : Z :=
  totalPages (filteredComments (State.searchTerm st) (State.comments st)).

Definition goToPage (page : Z) (st : State.t) : State.t :=
  State.setCurrentPage (Z.max 1 (Z.min page (currentTotalPages st))) st.

(** The storage part of the callback of [prev.map] in [saveEdit]: read and
    parse the stored overlay, set the field in the entry of [id], write the
    whole overlay back. [None] when [JSON.parse] throws. *)
Definition persistEdit (JSON : Json) (id : Z) (field : Field.t) (value : string)
    (storage : Storage.t) : option Storage.t :=
  savedEdits ← parse JSON (orEmptyObject (Storage.getItem storage));
  let entry := Edit.set field value (default Edit.empty (savedEdits !! id)) in
  let savedEdits := <[id := entry]> savedEdits in
  Some (Storage.setItem (stringify JSON savedEdits) storage).

(** [prev.map(comment => ...)], left to right, with the storage the callback
    reads and writes threaded through. *)
Fixpoint saveComments (JSON : Json) (id : Z) (field : Field.t) (value : string)
    (prev : list Comment.t) (storage : Storage.t)
  : option (list Comment.t * Storage.t) :=
  match prev with
  | [] => Some ([], storage)
  | comment :: rest =>
      if Comment.id comment =? id then
        let updated := setCommentField field value comment in
        storage ← persistEdit JSON id field value storage;
        '(rest, storage) ← saveComments JSON id field value rest storage;
        Some (updated :: rest, storage)
      else
        '(rest, storage) ← saveComments JSON id field value rest storage;
        Some (comment :: rest, storage)
  end.

(** [saveEdit(id, field)]: the state and the storage after the handler and
    the state update it queues; [None] when the update throws. *)
Definition saveEdit (JSON : Json) (id : Z) (field : Field.t)
    (world : State.t * Storage.t) : option (State.t * Storage.t) :=
  let '(st, storage) := world in
  if JsString.isEmpty (JsString.trim (State.editValue st)) then Some world
  else
    let value := JsString.trim (State.editValue st) in
    '(comments, storage) ← saveComments JSON id field value (State.comments st) storage;
    Some (State.setEditValue "" (State.setEditingCell None
            (State.setComments comments st)), storage).

(** ** A JSON codec for overlays

    The instance of [Json] on which the statements about the host's [JSON]
    object are evaluated. [stringify] prints an overlay the way
    [JSON.stringify] prints an object of objects of strings; [parse] reads the
    JSON text of such an object and rejects a text that is not JSON. The
    overlay is the only JSON in its domain: a text of another shape is not
    what the program stores, and this codec rejects it as well. *)

Module Codec.

Definition quoteChar : ascii := "034"%char.

Definition hexDigit (n : N) : ascii :=
  if (n <? 10)%N then ascii_of_N (48 + n) else ascii_of_N (87 + n).

(** [JSON.stringify] escapes the quote, the backslash and the control
    characters. *)
Definition escapeChar (c : ascii) : string :=
  let n := N_of_ascii c in
  if (n =? 34)%N then String "\" (String quoteChar EmptyString)
  else if (n =? 92)%N then "\\"
  else if (n =? 8)%N then "\b"
  else if (n =? 9)%N then "\t"
  else if (n =? 10)%N then "\n"
  else if (n =? 12)%N then "\f"
  else if (n =? 13)%N then "\r"
  else if (n <? 32)%N
       then "\u00" ++ String (hexDigit (n / 16)) (String (hexDigit (n mod 16)) EmptyString)
       else String c EmptyString.

Fixpoint escape (s : string) : string :=
  match s with
  | EmptyString => EmptyString
  | String c s' => escapeChar c ++ escape s'
  end.

Definition quote (s : string) : string :=
  String quoteChar (escape s ++ String quoteChar EmptyString).

Fixpoint join (parts : list string) : string :=
  match parts with
  | [] => EmptyString
  | [p] => p
  | p :: rest => p ++ "," ++ join rest
  end.

Definition printField (key : string) (value : option string) : list string :=
  match value with
  | Some v => [quote key ++ ":" ++ quote v]
  | None => []
  end.

Definition printEntry (e : Edit.t) : string :=
  "{" ++ join (printField "name" (Edit.name e) ++ printField "body" (Edit.body e)) ++ "}".

Definition printMember (member : Z * Edit.t) : string :=
  quote (pretty (fst member)) ++ ":" ++ printEntry (snd member).

Definition stringify (edits : Edits) : string :=
  "{" ++ join (List.map printMember (map_to_list edits)) ++ "}".

(** JSON white space: space, TAB, LF, CR. *)
Definition isJsonSpace (c : ascii) : bool :=
  let n := N_of_ascii c in
  ((n =? 32) || (n =? 9) || (n =? 10) || (n =? 13))%N.

Fixpoint skipSpace (s : string) : string :=
  match s with
  | String c s' => if isJsonSpace c then skipSpace s' else s
  | EmptyString => EmptyString
  end.

Definition hexValue (c : ascii) : option N :=
  let n := N_of_ascii c in
  if ((48 <=? n) && (n <=? 57))%N then Some (n - 48)%N
  else if ((97 <=? n) && (n <=? 102))%N then Some (n - 87)%N
  else if ((65 <=? n) && (n <=? 70))%N then Some (n - 55)%N
  else None.

(** The code unit a [\uXXXX] escape denotes, when it is below 256. *)
Definition unicodeEscape (a b c d : ascii) : option ascii :=
  a ← hexValue a; b ← hexValue b; c ← hexValue c; d ← hexValue d;
  let n := (((a * 16 + b) * 16 + c) * 16 + d)%N in
  if (n <? 256)%N then Some (ascii_of_N n) else None.

Definition simpleEscape (c : ascii) : option ascii :=
  let n := N_of_ascii c in
  if (n =? 34)%N then Some quoteChar
  else if (n =? 92)%N then Some "\"%char
  else if (n =? 47)%N then Some "/"%char
  else if (n =? 98)%N then Some "008"%char
  else if (n =? 102)%N then Some "012"%char
  else if (n =? 110)%N then Some "010"%char
  else if (n =? 114)%N then Some "013"%char
  else if (n =? 116)%N then Some "009"%char
  else None.

(** The characters of a string literal after its opening quote, and the
    text after its closing quote. *)
Fixpoint parseChars (s : string) : option (string * string) :=
  match s with
  | EmptyString => None
  | String c s' =>
      if Ascii.eqb c quoteChar then Some (EmptyString, s')
      else if Ascii.eqb c "\"%char then
        match s' with
        | String "u" (String h1 (String h2 (String h3 (String h4 s'')))) =>
            u ← unicodeEscape h1 h2 h3 h4;
            '(r, rest) ← parseChars s'';
            Some (String u r, rest)
        | String e s'' =>
            u ← simpleEscape e;
            '(r, rest) ← parseChars s'';
            Some (String u r, rest)
        | EmptyString => None
        end
      else if (N_of_ascii c <? 32)%N then None
      else '(r, rest) ← parseChars s'; Some (String c r, rest)
  end.

Definition parseString (s : string) : option (string * string) :=
  match s with
  | String c s' => if Ascii.eqb c quoteChar then parseChars s' else None
  | EmptyString => None
  end.

(** The members of an object after the first key's white space, up to the
    closing brace. *)
Fixpoint parseMembers {V A : Type} (parseValue : string -> option (V * string))
    (add : string -> V -> A -> option A) (fuel : nat) (s : string) (acc : A)
  : option (A * string) :=
  match fuel with
  | O => None
  | S fuel =>
      '(key, s) ← parseString s;
      match skipSpace s with
      | String ":" s =>
          '(v, s) ← parseValue (skipSpace s);
          acc ← add key v acc;
          match skipSpace s with
          | String "," s => parseMembers parseValue add fuel (skipSpace s) acc
          | String "}" s => Some (acc, s)
          | _ => None
          end
      | _ => None
      end
  end.

Definition parseObject {V A : Type} (parseValue : string -> option (V * string))
    (add : string -> V -> A -> option A) (init : A) (s : string)
  : option (A * string) :=
  match s with
  | String "{" s =>
      match skipSpace s with
      | String "}" s => Some (init, s)
      | s => parseMembers parseValue add (String.length s) s init
      end
  | _ => None
  end.

Definition addField (key value : string) (e : Edit.t) : option Edit.t :=
  if String.eqb key "name" then Some (Edit.set Field.name value e)
  else if String.eqb key "body" then Some (Edit.set Field.body value e)
  else None.

Definition parseEntry : string -> option (Edit.t * string) :=
  parseObject parseString addField Edit.empty.

Fixpoint digitsValue (s : string) (acc : Z) : option Z :=
  match s with
  | EmptyString => Some acc
  | String c s' =>
      let n := N_of_ascii c in
      if ((48 <=? n) && (n <=? 57))%N
      then digitsValue s' (10 * acc + Z.of_N (n - 48))
      else None
  end.

(** The integer whose decimal text, as [String(id)] gives it, is [key]. *)
Definition parseId (key : string) : option Z :=
  z ← match key with
      | String c digits =>
          if Ascii.eqb c "-" then Z.opp <$> digitsValue digits 0
          else digitsValue key 0
      | EmptyString => None
      end;
  if String.eqb (pretty z) key then Some z else None.

Definition addEntry (key : string) (e : Edit.t) (edits : Edits) : option Edits :=
  id ← parseId key; Some (<[id := e]> edits).

Definition parse (text : string) : option Edits :=
  '(edits, rest) ← parseObject parseEntry addEntry ∅ (skipSpace text);
  match skipSpace rest with
  | EmptyString => Some edits
  | _ => None
  end.

End Codec.

Definition codecJSON : Json :=
  {| parse := Codec.parse; stringify := Codec.stringify |}.

(** ** Vocabulary of the statements *)

(** [p] occurs in [s]. *)
Definition occursIn (p s : string) : Prop :=
  exists pre suf : string, s = pre ++ p ++ suf.

(** One of the three searched fields of [c], lowercased, contains the
    lowercased [term]. *)
Definition fieldContains (term : string) (c : Comment.t) : Prop :=
  occursIn (JsString.toLowerCase term) (JsString.toLowerCase (Comment.email c))
  \/ occursIn (JsString.toLowerCase term) (JsString.toLowerCase (Comment.name c))
  \/ occursIn (JsString.toLowerCase term) (JsString.toLowerCase (Comment.body c)).

(** The comment [c] is not the one with identifier [id]. *)
Definition absent (id : Z) (c : Comment.t) : Prop := Comment.id c <> id.

(** A fetch fails: the promise rejects, the status is not a success, or the
    body does not parse. *)
Definition fetchFails {A : Type} (f : Fetch A) : Prop :=
  match f with
  | Rejected => True
  | Responded ok json => ok = false \/ json = None
  end.

(** ** Vocabulary of the codec's correctness *)

(** A member of an object as the codec prints it: its key, the text of its
    value, and the value. *)
Definition printItem {V : Type} (item : string * string * V) : string :=
  Codec.quote (fst (fst item)) ++ ":" ++ snd (fst item).

(** [parseValue] reads the text of the item's value back, whatever follows. *)
Definition reads {V : Type} (parseValue : string -> option (V * string))
    (item : string * string * V) : Prop :=
  forall rest,
    parseValue (snd (fst item) ++ rest) = Some (snd item, rest)
    /\ Codec.skipSpace (snd (fst item) ++ rest) = snd (fst item) ++ rest.

Fixpoint addAll {V A : Type} (add : string -> V -> A -> option A)
    (items : list (string * string * V)) (acc : A) : option A :=
  match items with
  | [] => Some acc
  | item :: items =>
      acc ← add (fst (fst item)) (snd item) acc; addAll add items acc
  end.

Definition entryItems (e : Edit.t) : list (string * string * string) :=
  (match Edit.name e with Some v => [("name", Codec.quote v, v)] | None => [] end
   ++ match Edit.body e with Some v => [("body", Codec.quote v, v)] | None => [] end)%list.

Definition editsItems (l : list (Z * Edit.t)) : list (string * string * Edit.t) :=
  List.map (fun m => (pretty (fst m), Codec.printEntry (snd m), snd m)) l.

Definition insertAll (l : list (Z * Edit.t)) (acc : Edits) : Edits :=
  foldl (fun acc m => <[fst m := snd m]> acc) acc l.

(** ** Sample data *)

Module Sample.
Definition first : Comment.t := Comment.mk 1 "A" "a@x.com" "hi" 1.
Definition second : Comment.t := Comment.mk 2 "B" "b@y.com" "bye" 1.
Definition alice : Comment.t :=
  Comment.mk 7 "Alice" "alice@example.com" "hello" 1.
Definition post : Post.t := Post.mk 1 "a post".

(** [n] comments, numbered from 1. *)
Definition numbered (n : nat) : list Comment.t :=
  List.map (fun i => Comment.mk (Z.of_nat i) "n" "e" "b" 1) (seq 1 n).

(** 25 comments: three pages. *)
Definition many : list Comment.t := numbered 25.

(** The name of comment 7 is being edited, with a padded draft. *)
Definition editing : State.t :=
  State.mk [alice] [post] false None EmptyString 1 (Some (7, Field.name)) "  Bob  ".

Definition blankDraft : State.t :=
  State.mk [alice] [post] false None EmptyString 1 (Some (7, Field.name)) "   ".

(** On page 5 of the unfiltered list of 60 comments. *)
Definition onPageFive : State.t :=
  State.mk (numbered 60) [post] false None EmptyString 5 None EmptyString.

Definition noItem : Storage.t := Storage.mk None [].
Definition malformed : Storage.t := Storage.mk (Some "{oops") [].

Definition bobEdits : Edits := {[ 7 := Edit.mk (Some "Bob") None ]}.
Definition emptyOverride : Edits := {[ 7 := Edit.mk (Some EmptyString) None ]}.
End Sample.

(** * The rest of the component *)

(** ** Post titles *)

Definition placeholderTitle : string := "Loading...".

(** [posts.find((p) => p.id === postId)], then [post?.title || "Loading..."]:
    the title of the first post with that identifier, and the placeholder
    when there is no such post or its title is the empty string. *)
Definition getPostTitle (posts : list Post.t) (postId : Z) : string :=
  let post := List.find (fun p => Post.id p =? postId) posts in
  orElse (Post.title <$> post) placeholderTitle.

(** ** The editor *)

Definition startEdit (id : Z) (field : Field.t) (currentValue : string)
    (st : State.t) : State.t :=
  State.setEditValue currentValue (State.setEditingCell (Some (id, field)) st).

Definition cancelEdit (st : State.t) : State.t :=
  State.setEditValue EmptyString (State.setEditingCell None st).

Definition fieldEqb (a b : Field.t) : bool :=
  match a, b with
  | Field.name, Field.name | Field.body, Field.body => true
  | _, _ => false
  end.

(** [editingCell?.id === comment.id && editingCell?.field === field]: the
    cell of [field] in the row of [comment] shows the input. *)
Definition isEditing (editingCell : option (Z * Field.t)) (comment : Comment.t)
    (field : Field.t) : bool :=
  match editingCell with
  | Some (id, f) => (id =? Comment.id comment) && fieldEqb f field
  | None => false
  end.

(** ** What is rendered *)

(** The rows of the table: the current page of the filtered comments. *)
Definition visibleComments (st : State.t) : list Comment.t :=
  paginatedComments (State.currentPage st)
    (filteredComments (State.searchTerm st) (State.comments st)).

(** [filteredComments.length === 0]: the message replaces the table. *)
Definition showsEmptyState (filtered : list Comment.t) : bool :=
  Z.of_nat (length filtered) =? 0.

(** [totalPages > 1]: the navigation bar is rendered. *)
Definition showsPagination (filtered : list Comment.t) : bool :=
  totalPages filtered >? 1.

(** The two numbers of the line [Showing a to b of n results]. *)
Definition showingFrom (currentPage : Z) : Z :=
  (currentPage - 1) * ITEMS_PER_PAGE + 1.

Definition showingTo (currentPage : Z) (filtered : list Comment.t) : Z :=
  Z.min (currentPage * ITEMS_PER_PAGE) (Z.of_nat (length filtered)).

(** [disabled={currentPage === 1}] and [disabled={currentPage === totalPages}] *)
Definition previousDisabled (currentPage : Z) : bool := currentPage =? 1.

Definition nextDisabled (currentPage totalPages : Z) : bool :=
  currentPage =? totalPages.

(** ** The component as a machine *)

(** What the user can make the loaded component do: type in the search box,
    press a navigation button, open the editor on a cell, type in the editor,
    confirm, cancel. The arguments are those of the handlers; the rendered
    page restricts them further. *)
Inductive Action : Type :=
| Search (value : string)
| GoToPage (page : Z)
| StartEdit (id : Z) (field : Field.t) (currentValue : string)
| EditDraft (value : string)
| SaveEdit (id : Z) (field : Field.t)
| CancelEdit.

(** One handler call; [None] when it throws. *)
Definition step (JSON : Json) (a : Action) (world : State.t * Storage.t)
  : option (State.t * Storage.t) :=
  match a with
  | Search value => Some (changeSearchTerm value (fst world), snd world)
  | GoToPage page => Some (goToPage page (fst world), snd world)
  | StartEdit id field currentValue =>
      Some (startEdit id field currentValue (fst world), snd world)
  | EditDraft value => Some (State.setEditValue value (fst world), snd world)
  | SaveEdit id field => saveEdit JSON id field world
  | CancelEdit => Some (cancelEdit (fst world), snd world)
  end.

Fixpoint run (JSON : Json) (actions : list Action) (world : State.t * Storage.t)
  : option (State.t * Storage.t) :=
  match actions with
  | [] => Some world
  | a :: actions => world ← step JSON a world; run JSON actions world
  end.

(** ** Vocabulary of the further statements *)

(** Every code unit of [s] is white space. *)
Fixpoint allSpace (s : string) : bool :=
  match s with
  | EmptyString => true
  | String c s' => JsString.isWhiteSpace c && allSpace s'
  end.

(** The last code unit of [s]. *)
Fixpoint lastChar (s : string) : option ascii :=
  match s with
  | EmptyString => None
  | String c EmptyString => Some c
  | String _ s' => lastChar s'
  end.

Definition firstChar (s : string) : option ascii :=
  match s with
  | EmptyString => None
  | String c _ => Some c
  end.

(** [s] is not empty and neither starts nor ends with white space. *)
Definition trimmed (s : string) : Prop :=
  s <> EmptyString
  /\ (forall c, firstChar s = Some c -> JsString.isWhiteSpace c = false)
  /\ (forall c, lastChar s = Some c -> JsString.isWhiteSpace c = false).

(** What the callback of [saveEdit] makes of one comment. *)
Definition editedComment (id : Z) (field : Field.t) (value : string)
    (comment : Comment.t) : Comment.t :=
  if Comment.id comment =? id then setCommentField field value comment
  else comment.

(** The number of comments with identifier [id]. *)
Definition occurrences (id : Z) (comments : list Comment.t) : nat :=
  length (List.filter (fun c => Comment.id c =? id) comments).

(** The overlay after saving [value] in [field] of [id] over [savedEdits]. *)
Definition savedOver (id : Z) (field : Field.t) (value : string)
    (savedEdits : Edits) : Edits :=
  <[id := Edit.set field value (default Edit.empty (savedEdits !! id))]> savedEdits.

(** The parts of a comment that no handler changes. *)
Definition fixedPart (c : Comment.t) : Z * string * Z :=
  (Comment.id c, Comment.email c, Comment.postId c).

(** Every value the overlay holds is trimmed. *)
Definition trimmedOverlay (edits : Edits) : Prop :=
  forall id e field v,
    edits !! id = Some e -> Edit.get field e = Some v -> trimmed v.

(** The overlay of the storage, as the startup reads it, is [edits]. *)
Definition holds (JSON : Json) (storage : Storage.t) (edits : Edits) : Prop :=
  parseOrEmpty JSON (Storage.getItem storage) = Some edits.

(** What no action changes, from one world to a later one: the current page
    stays at 1 or above once it is; the comments keep their number, order,
    identifiers, emails and post references; posts, loading flag and error
    are the same; the writes of the earlier world are still the oldest
    writes. *)
Definition preserved (w w' : State.t * Storage.t) : Prop :=
  (1 <= State.currentPage (fst w) -> 1 <= State.currentPage (fst w'))
  /\ List.map fixedPart (State.comments (fst w'))
     = List.map fixedPart (State.comments (fst w))
  /\ State.posts (fst w') = State.posts (fst w)
  /\ State.loading (fst w') = State.loading (fst w)
  /\ State.error (fst w') = State.error (fst w)
  /\ exists new, Storage.writes (snd w') = (new ++ Storage.writes (snd w))%list.

Module Scenario.
(** Eleven comments that all contain the letter n, and a post. *)
Definition eleven : list Comment.t := Sample.numbered 11.

(** The component after loading them, before any action. *)
Definition loaded : State.t :=
  State.mk eleven [Sample.post] false None EmptyString 1 None EmptyString.

(** Search for n, go to page 2, and rename its only row so that it no
    longer matches. *)
Definition renameLastRow : list Action :=
  [Search "n"; GoToPage 2; StartEdit 11 Field.name "n"; EditDraft " x ";
   SaveEdit 11 Field.name].

Definition posts : list Post.t :=
  [Post.mk 1 "first"; Post.mk 2 EmptyString; Post.mk 1 "shadowed"].
End Scenario.

(** * Properties *)

(** ** Strings *)

Lemma startsWith_spec (s p : string) :
  JsString.startsWith s p = true <-> exists suf, s = p ++ suf.
Proof.
  revert s. induction p as [|b p IH]; intros s; simpl.
  - split; [intros _; now exists s | reflexivity].
  - destruct s as [|a s]; simpl.
    + split; [discriminate | intros [suf H]; discriminate].
    + rewrite andb_true_iff, Ascii.eqb_eq, IH. split.
      * intros [-> [suf ->]]. now exists suf.
      * intros [suf H]. injection H as -> ->. split; [reflexivity | now exists suf].
Qed.

Lemma includes_spec (s p : string) :
  JsString.includes s p = true <-> occursIn p s.
Proof.
  unfold occursIn. induction s as [|a s IH].
  - simpl. rewrite orb_false_r, startsWith_spec. split.
    + intros [suf H]. exists EmptyString, suf. exact H.
    + intros [[|c pre] [suf H]]; [now exists suf | discriminate].
  - cbn [JsString.includes]. rewrite orb_true_iff, startsWith_spec, IH. split.
    + intros [[suf H] | [pre [suf H]]].
      * exists EmptyString, suf. exact H.
      * exists (String a pre), suf. simpl. now rewrite H.
    + intros [[|c pre] [suf H]].
      * left. now exists suf.
      * right. simpl in H. injection H as _ ->. now exists pre, suf.
Qed.

Lemma isEmpty_spec (s : string) : JsString.isEmpty s = true <-> s = EmptyString.
Proof. destruct s; simpl; split; congruence. Qed.

Lemma truthy_false (s : string) : JsString.truthy s = false <-> s = EmptyString.
Proof. unfold JsString.truthy. rewrite negb_false_iff. apply isEmpty_spec. Qed.

Lemma truthy_true (s : string) : JsString.truthy s = true <-> s <> EmptyString.
Proof. destruct s; cbv; split; intros H; congruence. Qed.

(** ** Filtering *)

Lemma matchesSearch_spec (term : string) (c : Comment.t) :
  matchesSearch (JsString.toLowerCase term) c = true <-> fieldContains term c.
Proof.
  unfold matchesSearch, fieldContains.
  rewrite !orb_true_iff, !includes_spec. tauto.
Qed.

Lemma filter_sublist {A : Type} (f : A -> bool) (l : list A) :
  sublist (List.filter f l) l.
Proof.
  induction l as [|x l IH]; simpl.
  - constructor.
  - destruct (f x); now constructor.
Qed.

Lemma filteredComments_blank (term : string) (comments : list Comment.t) :
  JsString.trim term = EmptyString -> filteredComments term comments = comments.
Proof.
  intros H. unfold filteredComments. now rewrite H.
Qed.

Lemma filteredComments_term (term : string) (comments : list Comment.t) :
  JsString.trim term <> EmptyString ->
  filteredComments term comments
  = List.filter (matchesSearch (JsString.toLowerCase term)) comments.
Proof.
  intros H. unfold filteredComments.
  apply truthy_true in H. now rewrite H.
Qed.

(** C5. A blank search term (empty once trimmed) passes every comment through
    unchanged. Otherwise a comment is retained exactly when its email, name or
    body, lowercased, contains the lowercased term as a substring, and the
    retained comments are a subsequence of the input, in the input's order.
    The terms ALICE and alice give the same result on every input. *)
Theorem filteredComments_case_insensitive :
  forall (searchTerm : string) (comments : list Comment.t),
    (JsString.trim searchTerm = EmptyString ->
       filteredComments searchTerm comments = comments)
    /\ (JsString.trim searchTerm <> EmptyString ->
          (forall c, In c (filteredComments searchTerm comments)
                     <-> In c comments /\ fieldContains searchTerm c)
          /\ sublist (filteredComments searchTerm comments) comments)
    /\ filteredComments "ALICE" comments = filteredComments "alice" comments.
Proof.
  intros searchTerm comments. split; [|split].
  - apply filteredComments_blank.
  - intros H. rewrite filteredComments_term by exact H. split.
    + intros c. now rewrite filter_In, matchesSearch_spec.
    + apply filter_sublist.
  - reflexivity.
Qed.

(** C10. A term that is not blank but carries white space at either end is
    matched as typed: every retained comment has a field that, lowercased,
    contains the lowercased term with its white space. The padded and the
    bare spelling of alice differ on a one-comment input. *)
Theorem filteredComments_untrimmed_term :
  forall (searchTerm : string) (comments : list Comment.t),
    JsString.trim searchTerm <> EmptyString ->
    searchTerm <> JsString.trim searchTerm ->
    (forall c, In c (filteredComments searchTerm comments) ->
               In c comments /\ fieldContains searchTerm c)
    /\ (let alice := Comment.mk 1 "alice" "alice@example.com" "hello" 1 in
        filteredComments " alice " [alice] = []
        /\ filteredComments "alice" [alice] = [alice]).
Proof.
  intros searchTerm comments H _. split.
  - intros c. rewrite filteredComments_term by exact H.
    now rewrite filter_In, matchesSearch_spec.
  - split; reflexivity.
Qed.

(** ** Pagination *)

Lemma take_plus {A : Type} (a b : nat) (l : list A) :
  take (a + b) l = (take a l ++ take b (drop a l))%list.
Proof.
  revert l. induction a as [|a IH]; intros [|x l]; simpl; try reflexivity.
  - now rewrite take_nil.
  - now rewrite IH.
Qed.

Lemma slice_nonneg {A : Type} (l : list A) (start count : Z) :
  0 <= start -> 0 <= count ->
  slice l start (start + count)
  = take (Z.to_nat count) (drop (Z.to_nat start) l).
Proof.
  intros Hs Hc. unfold slice, relativeIndex.
  destruct (Z.ltb_spec start 0) as [?|_]; [lia|].
  destruct (Z.ltb_spec (start + count) 0) as [?|_]; [lia|].
  set (len := Z.of_nat (length l)).
  destruct (Z.le_gt_cases len start) as [Hge|Hlt].
  - rewrite !drop_ge by lia. now rewrite !take_nil.
  - rewrite (Z.min_l start len) by lia.
    destruct (Z.le_gt_cases (start + count) len) as [Hin|Hout].
    + rewrite Z.min_l by lia. f_equal. lia.
    + rewrite Z.min_r by lia.
      rewrite !take_ge; [reflexivity | |]; rewrite length_drop; lia.
Qed.

Lemma paginatedComments_take_drop (p : Z) (filtered : list Comment.t) :
  1 <= p ->
  paginatedComments p filtered
  = take 10 (drop (10 * Z.to_nat (p - 1)) filtered).
Proof.
  intros Hp. unfold paginatedComments, ITEMS_PER_PAGE.
  rewrite slice_nonneg by lia.
  replace (Z.to_nat ((p - 1) * 10)) with (10 * Z.to_nat (p - 1))%nat by lia.
  reflexivity.
Qed.

Lemma concat_pages {A : Type} (l : list A) (n k : nat) :
  concat (List.map (fun i => take 10 (drop (10 * i) l)) (seq k n))
  = take (10 * n) (drop (10 * k) l).
Proof.
  revert k. induction n as [|n IH]; intros k.
  - reflexivity.
  - cbn [seq List.map concat]. rewrite IH.
    replace (10 * S n)%nat with (10 + 10 * n)%nat by lia.
    rewrite take_plus, drop_drop.
    now replace (10 * k + 10)%nat with (10 * S k)%nat by lia.
Qed.

Lemma totalPages_covers (filtered : list Comment.t) :
  0 <= totalPages filtered
  /\ Z.of_nat (length filtered) <= 10 * totalPages filtered
  /\ 10 * (totalPages filtered - 1) < Z.of_nat (length filtered).
Proof.
  unfold totalPages, ceilDiv, ITEMS_PER_PAGE.
  pose proof (Z.div_mod (- Z.of_nat (length filtered)) 10 ltac:(lia)).
  pose proof (Z.mod_pos_bound (- Z.of_nat (length filtered)) 10 ltac:(lia)).
  lia.
Qed.

Lemma concat_paginated (filtered : list Comment.t) (n : Z) :
  totalPages filtered <= n ->
  concat (List.map (fun p => paginatedComments p filtered) (seqZ 1 n)) = filtered.
Proof.
  intros Hn. pose proof (totalPages_covers filtered) as (H0 & Hlen & _).
  unfold seqZ. rewrite <- list_fmap_compose.
  transitivity (concat (List.map (fun i => take 10 (drop (10 * i) filtered))
                                 (seq 0 (Z.to_nat n)))).
  - f_equal. apply map_ext. intros i. unfold compose.
    rewrite paginatedComments_take_drop by lia.
    do 3 f_equal. lia.
  - rewrite concat_pages. simpl. apply take_ge. lia.
Qed.

(** C6. With the page size 10, the slice of page [p] holds, at position
    [i < 10], the element of the filtered sequence at index [(p-1)*10 + i],
    and nothing at or after the end of the sequence; the slices of the pages
    1, 2, ..., [totalPages], concatenated in order, are the filtered sequence. *)
Theorem paginatedComments_partition :
  forall filtered : list Comment.t,
    (forall (p : Z) (i : nat), 1 <= p ->
       paginatedComments p filtered !! i
       = if decide (i < 10)%nat
         then filtered !! (Z.to_nat ((p - 1) * 10) + i)%nat
         else None)
    /\ concat (List.map (fun p => paginatedComments p filtered)
                        (seqZ 1 (totalPages filtered))) = filtered.
Proof.
  intros filtered. split.
  - intros p i Hp. rewrite paginatedComments_take_drop by exact Hp.
    case_decide as Hi.
    + rewrite lookup_take_lt by exact Hi. rewrite lookup_drop. f_equal. lia.
    + apply lookup_take_ge. lia.
  - apply concat_paginated. lia.
Qed.

(** ** Navigation *)

(** C7. A change of the search term leaves the current page at 1, whatever
    it was before. Navigating to [p] sets the current page to
    [max 1 (min p totalPages)]: when there is a page at all, that is [p] if
    [p] lies in [1, totalPages], 1 if [p] is below and [totalPages] if [p] is
    above. *)
Theorem search_resets_page_and_goToPage_clamps :
  forall (st : State.t) (value : string) (p : Z),
    (value <> State.searchTerm st ->
       State.currentPage (changeSearchTerm value st) = 1
       /\ State.searchTerm (changeSearchTerm value st) = value)
    /\ State.currentPage (goToPage p st)
       = Z.max 1 (Z.min p (currentTotalPages st))
    /\ (1 <= currentTotalPages st ->
          1 <= State.currentPage (goToPage p st) <= currentTotalPages st
          /\ (p < 1 -> State.currentPage (goToPage p st) = 1)
          /\ (1 <= p <= currentTotalPages st ->
                State.currentPage (goToPage p st) = p)
          /\ (currentTotalPages st < p ->
                State.currentPage (goToPage p st) = currentTotalPages st)).
Proof.
  intros st value p. split; [|split].
  - intros Hne. unfold changeSearchTerm, searchTermEffect. simpl.
    destruct (String.eqb_spec (State.searchTerm st) value) as [E|_].
    + now subst.
    + split; reflexivity.
  - reflexivity.
  - intros Htp. simpl. lia.
Qed.

Lemma pageWindow_seqZ (tp cp : Z) :
  pageWindow tp cp
  = seqZ (fst (pageRange tp cp))
         (snd (pageRange tp cp) - fst (pageRange tp cp) + 1).
Proof.
  unfold pageWindow, seqZ. destruct (pageRange tp cp) as [a b]. simpl.
  apply map_ext. intros i. lia.
Qed.

(** Two lists of integers of the same length, compared element by element. *)
Ltac cons_lia := repeat (apply (f_equal2 cons); [lia|]); reflexivity.

Lemma seqZ_five (m : Z) : seqZ m 5 = [m; m + 1; m + 2; m + 3; m + 4].
Proof.
  unfold seqZ. change (Z.to_nat 5) with 5%nat. cbn. cons_lia.
Qed.

Ltac window_cases :=
  repeat split;
  first [ rewrite length_seqZ; lia
        | intros; lia
        | intros; reflexivity
        | intros; rewrite seqZ_five; cons_lia ].

(** C9, as the code has it. The navigation bar shows at most 5 page buttons.
    Up to 5 pages, it shows them all. Beyond that, on pages 1 to 3 it shows
    pages 1 to 5; from the third page from the end on, it shows the last 5
    pages; otherwise it shows the current page with two pages on each side. *)
Theorem pageWindow_shape :
  forall tp cp : Z,
    (length (pageWindow tp cp) <= 5)%nat
    /\ (tp <= 5 -> pageWindow tp cp = seqZ 1 tp)
    /\ (5 < tp -> cp <= 3 -> pageWindow tp cp = [1; 2; 3; 4; 5])
    /\ (5 < tp -> 3 < cp -> tp - 2 <= cp ->
          pageWindow tp cp = [tp - 4; tp - 3; tp - 2; tp - 1; tp])
    /\ (5 < tp -> 3 < cp -> cp < tp - 2 ->
          pageWindow tp cp = [cp - 2; cp - 1; cp; cp + 1; cp + 2]).
Proof.
  intros tp cp. rewrite pageWindow_seqZ. unfold pageRange.
  destruct (Z.gtb_spec tp 5) as [Hbig|Hsmall];
    [destruct (Z.leb_spec cp 3) as [Hlow|Hlow];
     [|destruct (Z.geb_spec cp (tp - 2)) as [Hhigh|Hhigh]]|];
    cbn [fst snd].
  - window_cases.
  - replace (tp - (tp - 5 + 1) + 1) with 5 by lia. window_cases.
  - replace (cp + 2 - (cp - 2) + 1) with 5 by lia. window_cases.
  - replace (Z.min 5 tp - 1 + 1) with tp by lia. window_cases.
Qed.

(** ** Merging the overlay *)

Lemma orElse_saved (saved : option string) (fetched v : string) :
  saved = Some v -> v <> EmptyString -> orElse saved fetched = v.
Proof.
  intros -> Hv. unfold orElse. apply truthy_true in Hv. now rewrite Hv.
Qed.

Lemma orElse_fetched (saved : option string) (fetched : string) :
  saved = None \/ saved = Some EmptyString -> orElse saved fetched = fetched.
Proof. now intros [-> | ->]. Qed.

Lemma commentsWithEdits_empty (commentsData : list Comment.t) :
  commentsWithEdits ∅ commentsData = commentsData.
Proof.
  unfold commentsWithEdits. rewrite <- (map_id commentsData) at 2.
  apply map_ext. intros c. now rewrite lookup_empty.
Qed.

Lemma commentsWithEdits_lookup (edits : Edits) (commentsData : list Comment.t)
    (i : nat) (c : Comment.t) :
  commentsData !! i = Some c ->
  commentsWithEdits edits commentsData !! i
  = Some (match edits !! Comment.id c with
          | Some savedEdit => applyEdit savedEdit c
          | None => c
          end).
Proof.
  intros H. unfold commentsWithEdits.
  change (List.map ?f ?l) with (f <$> l).
  now rewrite list_lookup_fmap, H.
Qed.

(** C1, as the code has it. The merge gives a sequence of the same length.
    The comment at each position keeps its identifier, email and post
    reference. With no overlay entry for its identifier it is the fetched
    comment. With an entry, its name is the entry's name when the entry has
    one and it is not the empty string, and the fetched name otherwise; the
    same holds for the body. The merge is a function of its two arguments and
    builds a new sequence. *)
Theorem commentsWithEdits_overlay :
  forall (edits : Edits) (commentsData : list Comment.t),
    length (commentsWithEdits edits commentsData) = length commentsData
    /\ forall (i : nat) (c : Comment.t),
         commentsData !! i = Some c ->
         exists c',
           commentsWithEdits edits commentsData !! i = Some c'
           /\ Comment.id c' = Comment.id c
           /\ Comment.email c' = Comment.email c
           /\ Comment.postId c' = Comment.postId c
           /\ (edits !! Comment.id c = None -> c' = c)
           /\ forall savedEdit, edits !! Comment.id c = Some savedEdit ->
                (forall v, Edit.name savedEdit = Some v -> v <> EmptyString ->
                           Comment.name c' = v)
                /\ (Edit.name savedEdit = None \/ Edit.name savedEdit = Some EmptyString ->
                    Comment.name c' = Comment.name c)
                /\ (forall v, Edit.body savedEdit = Some v -> v <> EmptyString ->
                              Comment.body c' = v)
                /\ (Edit.body savedEdit = None \/ Edit.body savedEdit = Some EmptyString ->
                    Comment.body c' = Comment.body c).
Proof.
  intros edits commentsData. split.
  - unfold commentsWithEdits. apply length_map.
  - intros i c Hc. eexists. split; [apply commentsWithEdits_lookup; exact Hc|].
    destruct (edits !! Comment.id c) as [e|]; simpl.
    + do 3 (split; [reflexivity|]). split; [discriminate|].
      intros savedEdit [= <-]. split; [|split; [|split]].
      * intros v. apply orElse_saved.
      * apply orElse_fetched.
      * intros v. apply orElse_saved.
      * apply orElse_fetched.
    + do 4 (split; [reflexivity|]). discriminate.
Qed.

(** ** Saving an edit *)

(** C3. When the draft is blank (empty once trimmed), [saveEdit] returns
    without any effect: the state, with its comment list, and the storage,
    with its item and its record of writes, are as before. *)
Theorem saveEdit_blank_is_noop :
  forall (JSON : Json) (id : Z) (field : Field.t)
         (st : State.t) (storage : Storage.t),
    JsString.trim (State.editValue st) = EmptyString ->
    saveEdit JSON id field (st, storage) = Some (st, storage).
Proof.
  intros JSON id field st storage H. unfold saveEdit. now rewrite H.
Qed.

Lemma saveComments_absent (JSON : Json) (id : Z) (field : Field.t)
    (value : string) (cs : list Comment.t) (storage : Storage.t) :
  Forall (absent id) cs ->
  saveComments JSON id field value cs storage = Some (cs, storage).
Proof.
  induction 1 as [|c cs Hc _ IH]; simpl.
  - reflexivity.
  - apply Z.eqb_neq in Hc. rewrite Hc, IH. reflexivity.
Qed.

Lemma saveComments_once (JSON : Json) (id : Z) (field : Field.t)
    (value : string) (pre suf : list Comment.t) (c : Comment.t)
    (storage storage' : Storage.t) :
  Forall (absent id) pre -> Forall (absent id) suf -> Comment.id c = id ->
  persistEdit JSON id field value storage = Some storage' ->
  saveComments JSON id field value (pre ++ c :: suf)%list storage
  = Some ((pre ++ setCommentField field value c :: suf)%list, storage').
Proof.
  intros Hpre Hsuf Hc Hp. induction Hpre as [|x pre Hx _ IH]; simpl.
  - apply Z.eqb_eq in Hc. rewrite Hc, Hp. simpl.
    now rewrite saveComments_absent.
  - apply Z.eqb_neq in Hx. now rewrite Hx, IH.
Qed.

Lemma split_unique (id : Z) (cs : list Comment.t) :
  In id (List.map Comment.id cs) -> NoDup (List.map Comment.id cs) ->
  exists pre c suf,
    cs = (pre ++ c :: suf)%list /\ Comment.id c = id
    /\ Forall (absent id) pre /\ Forall (absent id) suf.
Proof.
  induction cs as [|x cs IH]; simpl; [tauto|].
  intros Hin Hnd. apply NoDup_cons in Hnd as [Hx Hnd].
  destruct (Z.eq_dec (Comment.id x) id) as [E|E].
  - exists [], x, cs. repeat split; [exact E | constructor |].
    apply Forall_forall. intros c Hc Heq. apply Hx.
    rewrite E, <- Heq. now apply (list_elem_of_fmap_2 Comment.id).
  - destruct Hin as [?|Hin]; [contradiction|].
    destruct (IH Hin Hnd) as (pre & c & suf & -> & Hc & Hpre & Hsuf).
    exists (x :: pre), c, suf. repeat split; auto.
Qed.

Lemma edit_set_get (field other : Field.t) (value : string) (e : Edit.t) :
  Edit.get field (Edit.set field value e) = Some value
  /\ (other <> field -> Edit.get other (Edit.set field value e) = Edit.get other e).
Proof. destruct field, other; simpl; split; congruence. Qed.

Lemma applyEdit_field (field : Field.t) (value : string) (e : Edit.t)
    (c : Comment.t) :
  Edit.get field e = Some value -> value <> EmptyString ->
  getCommentField field (applyEdit e c) = value.
Proof.
  destruct field; simpl; intros H Hv; now apply orElse_saved.
Qed.

Lemma parse_orEmptyObject (JSON : Json) :
  JsonLaws JSON ->
  forall text, parse JSON (orEmptyObject text) = parseOrEmpty JSON text.
Proof.
  intros Hlaws [s|]; simpl; [destruct (JsString.truthy s)|];
    auto using parse_empty_object.
Qed.

Lemma reload_written (JSON : Json) :
  JsonLaws JSON ->
  forall edits, parseOrEmpty JSON (Some (stringify JSON edits)) = Some edits.
Proof.
  intros Hlaws edits. simpl.
  pose proof (stringify_nonempty JSON Hlaws edits) as Hne.
  apply truthy_true in Hne. rewrite Hne. apply (parse_stringify JSON Hlaws).
Qed.

(** C2. Take a lawful host [JSON], a draft whose trimmed value is not empty,
    a comment list in which [id] occurs (identifiers are unique), and a
    storage whose overlay, as the startup reads it, is [savedEdits] (the empty
    overlay when nothing is stored). Then [saveEdit] succeeds and makes
    exactly one write, of the text of the whole overlay in which the entry of
    [id] has the trimmed value for the field and the previously saved value,
    if any, for the other field, and in which the entries of the other
    identifiers are as before. The next startup gives every fetched comment
    with identifier [id] the trimmed value in that field. *)
Theorem saveEdit_persists_trimmed_value :
  forall (JSON : Json) (id : Z) (field : Field.t)
         (st : State.t) (storage : Storage.t) (savedEdits : Edits),
    let value := JsString.trim (State.editValue st) in
    let entry := Edit.set field value (default Edit.empty (savedEdits !! id)) in
    let edits := <[id := entry]> savedEdits in
    JsonLaws JSON ->
    value <> EmptyString ->
    In id (List.map Comment.id (State.comments st)) ->
    NoDup (List.map Comment.id (State.comments st)) ->
    parseOrEmpty JSON (Storage.getItem storage) = Some savedEdits ->
    exists st' storage',
      saveEdit JSON id field (st, storage) = Some (st', storage')
      /\ Storage.writes storage' = stringify JSON edits :: Storage.writes storage
      /\ Storage.getItem storage' = Some (stringify JSON edits)
      /\ edits !! id = Some entry
      /\ Edit.get field entry = Some value
      /\ (forall other, other <> field ->
            Edit.get other entry = savedEdits !! id ≫= Edit.get other)
      /\ (forall id', id' <> id -> edits !! id' = savedEdits !! id')
      /\ forall (commentsData : list Comment.t) (postsData : list Post.t)
                (st0 : State.t),
           let reloaded :=
             fetchData JSON (Responded true (Some commentsData))
                       (Responded true (Some postsData)) storage' st0 in
           State.error reloaded = State.error st0
           /\ forall (i : nat) (c : Comment.t),
                commentsData !! i = Some c -> Comment.id c = id ->
                exists c',
                  State.comments reloaded !! i = Some c'
                  /\ Comment.id c' = id
                  /\ getCommentField field c' = value.
Proof.
  intros JSON id field st storage savedEdits value entry edits
         Hlaws Hvalue Hin Hnd Hstored.
  rewrite <- (parse_orEmptyObject JSON Hlaws) in Hstored.
  pose proof (reload_written JSON Hlaws edits) as Hback.
  destruct (split_unique id _ Hin Hnd) as (pre & c & suf & Hcs & Hc & Hpre & Hsuf).
  assert (Hpersist : persistEdit JSON id field value storage
                     = Some (Storage.setItem (stringify JSON edits) storage)).
  { unfold persistEdit. now rewrite Hstored. }
  destruct (edit_set_get field field value (default Edit.empty (savedEdits !! id)))
    as [Hget _].
  eexists _, (Storage.setItem (stringify JSON edits) storage).
  split; [|split; [|split; [|split; [|split; [|split; [|split]]]]]].
  - unfold saveEdit. fold value.
    apply truthy_true in Hvalue. unfold JsString.truthy in Hvalue.
    apply negb_true_iff in Hvalue. rewrite Hvalue, Hcs.
    rewrite (saveComments_once _ _ _ _ _ _ _ _ _ Hpre Hsuf Hc Hpersist).
    reflexivity.
  - reflexivity.
  - reflexivity.
  - apply lookup_insert_eq.
  - exact Hget.
  - intros other Hother.
    destruct (edit_set_get field other value (default Edit.empty (savedEdits !! id)))
      as [_ Hkeep].
    unfold entry. rewrite (Hkeep Hother).
    now destruct (savedEdits !! id); destruct other.
  - intros id' Hne. now apply lookup_insert_ne.
  - intros commentsData postsData st0 reloaded. subst reloaded.
    unfold fetchData, fetchBody. cbn [promiseAll fst snd negb orb mbind option_bind].
    cbn [Storage.setItem Storage.getItem Storage.item].
    rewrite Hback. cbn [mbind option_bind]. split; [reflexivity|].
    intros i c0 Hi Hid. cbn [State.comments State.setLoading State.setPosts State.setComments].
    rewrite (commentsWithEdits_lookup _ _ _ _ Hi), Hid.
    unfold edits at 1. rewrite lookup_insert_eq.
    eexists. split; [reflexivity|]. split; [exact Hid|].
    now apply applyEdit_field.
Qed.

(** ** Startup *)

Lemma fetchBody_fails (JSON : Json) (c : Fetch (list Comment.t))
    (p : Fetch (list Post.t)) (storage : Storage.t) :
  fetchFails c \/ fetchFails p -> fetchBody JSON c p storage = None.
Proof.
  unfold fetchBody.
  destruct c as [|[] [cs|]], p as [|[] [ps|]]; simpl; try reflexivity;
    intros [[H|H]|[H|H]]; discriminate.
Qed.

(** C8. When one of the two fetches fails, whatever the other one gives, the
    startup ends in the error state: the error message is set, loading is
    over, and the comments and posts of the state are what they were, so
    nothing of a response that did arrive is used. That state is the one
    reached when both fetches fail. *)
Theorem fetchData_no_partial_success :
  forall (JSON : Json) (c c' : Fetch (list Comment.t))
         (p p' : Fetch (list Post.t)) (storage : Storage.t) (st : State.t),
    fetchFails c \/ fetchFails p ->
    fetchFails c' -> fetchFails p' ->
    fetchData JSON c p storage st
    = State.setLoading false (State.setError (Some loadError) st)
    /\ fetchData JSON c p storage st = fetchData JSON c' p' storage st
    /\ State.comments (fetchData JSON c p storage st) = State.comments st
    /\ State.posts (fetchData JSON c p storage st) = State.posts st.
Proof.
  intros JSON c c' p p' storage st H Hc' Hp'.
  unfold fetchData.
  rewrite (fetchBody_fails JSON c p storage H).
  rewrite (fetchBody_fails JSON c' p' storage (or_introl Hc')).
  repeat split.
Qed.

(** C4, as the code has it. With both fetches successful: when the overlay
    item is missing or is the empty text, the overlay is empty, the fetched
    comments are shown as fetched and no error is raised; when the item is a
    text that [JSON.parse] rejects, the exception is caught by the handler of
    the startup, which sets the error message and leaves the comments and
    posts of the state as they were. In both cases loading ends. *)
Theorem fetchData_overlay_read :
  forall (JSON : Json) (commentsData : list Comment.t) (postsData : list Post.t)
         (storage : Storage.t) (st : State.t),
    let loaded :=
      fetchData JSON (Responded true (Some commentsData))
                (Responded true (Some postsData)) storage st in
    (Storage.getItem storage = None \/ Storage.getItem storage = Some EmptyString ->
       State.comments loaded = commentsData
       /\ State.posts loaded = postsData
       /\ State.error loaded = State.error st
       /\ State.loading loaded = false)
    /\ (forall text, Storage.getItem storage = Some text ->
          text <> EmptyString -> parse JSON text = None ->
          State.error loaded = Some loadError
          /\ State.comments loaded = State.comments st
          /\ State.posts loaded = State.posts st
          /\ State.loading loaded = false).
Proof.
  intros JSON commentsData postsData storage st loaded. subst loaded.
  unfold fetchData, fetchBody. cbn [promiseAll fst snd negb orb mbind option_bind].
  split.
  - intros [-> | ->]; cbn; rewrite commentsWithEdits_empty; repeat split.
  - intros text -> Hne Hparse. unfold parseOrEmpty.
    apply truthy_true in Hne. rewrite Hne, Hparse. repeat split.
Qed.

(** ** The codec reads back what it prints *)

Lemma string_app_cons (x : ascii) (a b : string) :
  String x a ++ b = String x (a ++ b).
Proof. reflexivity. Qed.

Lemma string_app_nil (b : string) : EmptyString ++ b = b.
Proof. reflexivity. Qed.

Lemma string_app_assoc (a b c : string) : (a ++ b) ++ c = a ++ b ++ c.
Proof.
  induction a as [|x a IH]; [reflexivity|].
  rewrite !string_app_cons. now rewrite IH.
Qed.

Lemma parseChars_escapeChar (c : ascii) (t : string) :
  Codec.parseChars (Codec.escapeChar c ++ t)
  = '(r, rest) ← Codec.parseChars t; Some (String c r, rest).
Proof.
  destruct c as [[|] [|] [|] [|] [|] [|] [|] [|]]; reflexivity.
Qed.

Lemma parseChars_escape (s rest : string) :
  Codec.parseChars (Codec.escape s ++ String Codec.quoteChar rest) = Some (s, rest).
Proof.
  induction s as [|c s IH].
  - reflexivity.
  - cbn [Codec.escape].
    rewrite string_app_assoc, parseChars_escapeChar, IH. reflexivity.
Qed.

Lemma parseString_quote (s rest : string) :
  Codec.parseString (Codec.quote s ++ rest) = Some (s, rest).
Proof.
  unfold Codec.quote. rewrite string_app_cons, string_app_assoc.
  apply parseChars_escape.
Qed.

Lemma digit_char (d : N) :
  (d < 10)%N -> N_of_ascii (pretty_N_char d) = (48 + d)%N.
Proof.
  intros H.
  assert (d = 0 \/ d = 1 \/ d = 2 \/ d = 3 \/ d = 4 \/ d = 5 \/ d = 6
          \/ d = 7 \/ d = 8 \/ d = 9)%N as Hd by lia.
  repeat (destruct Hd as [-> | Hd]; [reflexivity|]). now subst.
Qed.

Lemma digitsValue_pretty_N_go (x : N) :
  forall s : string,
  exists k : Z, forall acc : Z,
    Codec.digitsValue (pretty_N_go x s) acc
    = Codec.digitsValue s (acc * k + Z.of_N x).
Proof.
  induction (N.lt_wf_0 x) as [x _ IH]. intros s.
  destruct (N.eq_dec x 0%N) as [-> | Hx].
  - exists 1. intros acc. rewrite pretty_N_go_0. f_equal. lia.
  - assert (0 < x)%N as Hpos by lia.
    destruct (IH (x / 10)%N (N.div_lt x 10 Hpos ltac:(lia))
                 (String (pretty_N_char (x mod 10)) s)) as [k Hk].
    exists (10 * k). intros acc.
    rewrite pretty_N_go_step by exact Hpos. rewrite Hk.
    cbn [Codec.digitsValue].
    pose proof (N.mod_lt x 10 ltac:(lia)) as Hmod.
    pose proof (N.div_mod x 10 ltac:(lia)) as Hdm.
    rewrite (digit_char _ Hmod).
    set (r := (x mod 10)%N) in *. set (q := (x / 10)%N) in *.
    clearbody r q. clear Hk IH.
    assert (Hin : ((48 <=? 48 + r) && (48 + r <=? 57))%N = true).
    { apply andb_true_iff; split; apply N.leb_le; lia. }
    rewrite Hin. f_equal. lia.
Qed.

Lemma digitsValue_pretty_N (x : N) :
  Codec.digitsValue (pretty_N_go x EmptyString) 0 = Some (Z.of_N x).
Proof.
  destruct (digitsValue_pretty_N_go x EmptyString) as [k Hk].
  rewrite Hk. reflexivity.
Qed.

Lemma parseId_digits (key : string) (z : Z) :
  (forall rest, key <> String "-" rest) ->
  Codec.digitsValue key 0 = Some z -> pretty z = key ->
  Codec.parseId key = Some z.
Proof.
  intros Hdash Hd Hz. unfold Codec.parseId.
  destruct key as [|c digits].
  - injection Hd as <-. discriminate Hz.
  - destruct (Ascii.eqb_spec c "-") as [-> | _].
    + now destruct (Hdash digits).
    + rewrite Hd. cbn [mbind option_bind]. rewrite Hz.
      now rewrite String.eqb_refl.
Qed.

Lemma parseId_pretty (z : Z) : Codec.parseId (pretty z) = Some z.
Proof.
  destruct z as [|p|p].
  - reflexivity.
  - apply parseId_digits.
    + intros rest. apply (pretty_N_go_ne_dash (N.pos p)). discriminate.
    + apply (digitsValue_pretty_N (N.pos p)).
    + reflexivity.
  - unfold Codec.parseId.
    change (pretty (Z.neg p)) with (String "-" (pretty_N_go (N.pos p) EmptyString)).
    cbv beta iota. rewrite Ascii.eqb_refl, digitsValue_pretty_N.
    cbn [fmap option_fmap option_map mbind option_bind Z.of_N Z.opp].
    now rewrite String.eqb_refl.
Qed.

Lemma string_length_app (a b : string) :
  String.length (a ++ b) = (String.length a + String.length b)%nat.
Proof.
  induction a as [|x a IH]; [reflexivity|].
  rewrite string_app_cons. simpl. now rewrite IH.
Qed.

Lemma skipSpace_head (c : ascii) (t : string) :
  Codec.isJsonSpace c = false -> Codec.skipSpace (String c t) = String c t.
Proof. intros H. simpl. now rewrite H. Qed.

Lemma skipSpace_quote (s t : string) :
  Codec.skipSpace (Codec.quote s ++ t) = Codec.quote s ++ t.
Proof. reflexivity. Qed.

Section Members.
Context {V A : Type}.
Variable parseValue : string -> option (V * string).
Variable add : string -> V -> A -> option A.

Lemma join_cons_cons (p q : string) (l : list string) :
  Codec.join (p :: q :: l) = p ++ "," ++ Codec.join (q :: l).
Proof. reflexivity. Qed.

Lemma join_items_length (items : list (string * string * V)) :
  (length items <= String.length (Codec.join (List.map printItem items)))%nat.
Proof.
  induction items as [|p [|q l] IH].
  - simpl. lia.
  - simpl. unfold printItem, Codec.quote. rewrite string_app_cons. simpl. lia.
  - cbn [List.map] in *. rewrite join_cons_cons.
    unfold printItem at 1, Codec.quote at 1.
    rewrite string_app_cons. cbn [String.length length].
    rewrite !string_length_app. cbn [String.length]. cbn [length] in IH. lia.
Qed.

Lemma parseMembers_items (items : list (string * string * V)) :
  forall (fuel : nat) (acc acc' : A) (rest : string),
    items <> [] -> Forall (reads parseValue) items -> (length items <= fuel)%nat ->
    addAll add items acc = Some acc' ->
    Codec.parseMembers parseValue add fuel
      (Codec.join (List.map printItem items) ++ "}" ++ rest) acc
    = Some (acc', rest).
Proof.
  induction items as [|p items IH]; [congruence|].
  intros fuel acc acc' rest _ Hreads Hfuel Hadd.
  apply Forall_cons in Hreads as [Hp Hreads].
  destruct fuel as [|fuel]; [simpl in Hfuel; lia|].
  cbn [addAll] in Hadd.
  destruct (add (fst (fst p)) (snd p) acc) as [acc1|] eqn:Hacc1; [|discriminate].
  cbn [mbind option_bind] in Hadd.
  destruct items as [|q items].
  - cbn [List.map Codec.join Codec.parseMembers]. unfold printItem.
    rewrite !string_app_assoc, parseString_quote. cbn [mbind option_bind].
    rewrite string_app_cons, string_app_nil.
    rewrite skipSpace_head by reflexivity. cbv beta iota.
    destruct (Hp ("}" ++ rest)) as [Hv Hs]. rewrite Hs, Hv.
    cbn [mbind option_bind]. rewrite Hacc1. cbn [mbind option_bind].
    rewrite string_app_cons, string_app_nil.
    rewrite skipSpace_head by reflexivity. cbv beta iota.
    cbn [addAll] in Hadd. congruence.
  - cbn [List.map]. rewrite join_cons_cons. cbn [Codec.parseMembers].
    unfold printItem at 1.
    rewrite !string_app_assoc, parseString_quote. cbn [mbind option_bind].
    rewrite string_app_cons, string_app_nil.
    rewrite skipSpace_head by reflexivity. cbv beta iota.
    match goal with |- context [parseValue (Codec.skipSpace (_ ++ ?X))] =>
      destruct (Hp X) as [Hv Hs] end.
    rewrite Hs, Hv. cbn [mbind option_bind]. rewrite Hacc1.
    cbn [mbind option_bind].
    rewrite string_app_cons, string_app_nil.
    rewrite skipSpace_head by reflexivity. cbv beta iota.
    change (printItem q :: List.map printItem items)
      with (List.map printItem (q :: items)).
    replace (Codec.skipSpace (Codec.join (List.map printItem (q :: items)) ++ "}" ++ rest))
      with (Codec.join (List.map printItem (q :: items)) ++ "}" ++ rest).
    + apply IH; [discriminate | exact Hreads | simpl in *; lia | exact Hadd].
    + destruct items; reflexivity.
Qed.

Lemma parseObject_items (items : list (string * string * V)) (init acc : A)
    (rest : string) :
  Forall (reads parseValue) items -> addAll add items init = Some acc ->
  Codec.parseObject parseValue add init
    ("{" ++ Codec.join (List.map printItem items) ++ "}" ++ rest)
  = Some (acc, rest).
Proof.
  intros Hreads Hadd. rewrite string_app_cons, string_app_nil.
  destruct items as [|p items].
  - injection Hadd as <-. reflexivity.
  - cbn [Codec.parseObject].
    set (body := Codec.join (List.map printItem (p :: items)) ++ "}" ++ rest).
    assert (Hbody : exists t, body = String Codec.quoteChar t).
    { subst body. destruct items; eexists; reflexivity. }
    destruct Hbody as [t Ht].
    assert (Hlen : (length (p :: items) <= String.length body)%nat).
    { subst body. rewrite string_length_app.
      pose proof (join_items_length (p :: items)). lia. }
    rewrite Ht in *. rewrite skipSpace_head by reflexivity.
    cbv beta iota delta [Codec.quoteChar].
    fold Codec.quoteChar. rewrite <- Ht.
    apply parseMembers_items; [discriminate | exact Hreads | | exact Hadd].
    rewrite Ht. exact Hlen.
Qed.
End Members.

Lemma string_app_nil_r (a : string) : a ++ EmptyString = a.
Proof.
  induction a as [|x a IH]; [reflexivity|].
  rewrite string_app_cons. now rewrite IH.
Qed.

Lemma parseEntry_printEntry (e : Edit.t) (rest : string) :
  Codec.parseEntry (Codec.printEntry e ++ rest) = Some (e, rest).
Proof.
  unfold Codec.parseEntry, Codec.printEntry.
  replace (Codec.printField "name" (Edit.name e) ++ Codec.printField "body" (Edit.body e))%list
    with (List.map printItem (entryItems e))
    by (destruct e as [[n|] [b|]]; reflexivity).
  rewrite !string_app_assoc.
  apply parseObject_items.
  - destruct e as [[n|] [b|]]; repeat constructor;
      solve [apply parseString_quote | apply skipSpace_quote].
  - destruct e as [[n|] [b|]]; reflexivity.
Qed.

Lemma addEntry_pretty (k : Z) (e : Edit.t) (acc : Edits) :
  Codec.addEntry (pretty k) e acc = Some (<[k := e]> acc).
Proof. unfold Codec.addEntry. now rewrite parseId_pretty. Qed.

Lemma addAll_editsItems (l : list (Z * Edit.t)) (acc : Edits) :
  addAll Codec.addEntry (editsItems l) acc = Some (insertAll l acc).
Proof.
  revert acc. induction l as [|[k e] l IH]; intros acc; [reflexivity|].
  cbn [editsItems List.map addAll fst snd].
  rewrite addEntry_pretty. cbn [mbind option_bind]. apply IH.
Qed.

Lemma insertAll_list_to_map (l : list (Z * Edit.t)) (acc : Edits) :
  NoDup l.*1 -> insertAll l acc = list_to_map l ∪ acc.
Proof.
  revert acc. induction l as [|[k e] l IH]; intros acc Hnd.
  - cbn. now rewrite (left_id_L ∅ (∪)).
  - apply NoDup_cons in Hnd as [Hk Hnd].
    cbn [insertAll foldl fst snd]. fold (insertAll l (<[k:=e]> acc)).
    rewrite IH by exact Hnd. cbn [list_to_map foldr fst snd].
    rewrite <- insert_union_l. symmetry. apply insert_union_r.
    now apply not_elem_of_list_to_map_1.
Qed.

Lemma codec_parse_stringify (edits : Edits) :
  Codec.parse (Codec.stringify edits) = Some edits.
Proof.
  unfold Codec.parse, Codec.stringify.
  rewrite string_app_cons, string_app_nil.
  rewrite skipSpace_head by reflexivity.
  rewrite <- (string_app_nil_r (Codec.join _ ++ "}")).
  rewrite string_app_assoc.
  replace (List.map Codec.printMember (map_to_list edits))
    with (List.map printItem (editsItems (map_to_list edits)))
    by (unfold editsItems; rewrite List.map_map; reflexivity).
  change (String "{" ?t) with ("{" ++ t).
  rewrite (parseObject_items Codec.parseEntry Codec.addEntry _ ∅
             (insertAll (map_to_list edits) ∅)).
  - cbn [mbind option_bind Codec.skipSpace]. f_equal.
    rewrite insertAll_list_to_map by apply NoDup_fst_map_to_list.
    rewrite (right_id_L ∅ (∪)). apply list_to_map_to_list.
  - apply Forall_forall. intros item Hitem.
    apply list_elem_of_fmap in Hitem as [[k e] [-> _]].
    intros rest. split; [apply parseEntry_printEntry | reflexivity].
  - apply addAll_editsItems.
Qed.

Lemma codec_stringify_nonempty (edits : Edits) :
  Codec.stringify edits <> EmptyString.
Proof. discriminate. Qed.

(** The codec is a lawful [JSON] object. *)
Lemma codec_laws : JsonLaws codecJSON.
Proof.
  split.
  - reflexivity.
  - apply codec_stringify_nonempty.
  - apply codec_parse_stringify.
Qed.

(** * Worked instances *)

Lemma filteredComments_case_insensitive_witness :
  filteredComments "   " [Sample.first; Sample.second]
  = [Sample.first; Sample.second]
  /\ forall c, In c (filteredComments "B" [Sample.first; Sample.second])
               <-> In c [Sample.first; Sample.second] /\ fieldContains "B" c.
Proof.
  split.
  - apply (filteredComments_case_insensitive "   "). reflexivity.
  - apply (filteredComments_case_insensitive "B"). vm_compute. discriminate.
Defined.

Lemma filteredComments_untrimmed_term_witness :
  JsString.trim " alice " <> EmptyString
  /\ " alice " <> JsString.trim " alice "
  /\ (forall c, In c (filteredComments " alice " [Sample.alice]) ->
                In c [Sample.alice] /\ fieldContains " alice " c).
Proof.
  assert (H1 : JsString.trim " alice " <> EmptyString)
    by (vm_compute; discriminate).
  assert (H2 : " alice " <> JsString.trim " alice ")
    by (vm_compute; discriminate).
  split; [exact H1|]. split; [exact H2|].
  apply (filteredComments_untrimmed_term " alice " [Sample.alice] H1 H2).
Defined.

Lemma paginatedComments_partition_witness :
  1 <= 2
  /\ paginatedComments 2 Sample.many !! 0%nat = Sample.many !! 10%nat.
Proof.
  assert (Hp : 1 <= 2) by lia. split; [exact Hp|].
  exact (proj1 (paginatedComments_partition Sample.many) 2 0%nat Hp).
Defined.

Lemma search_resets_page_and_goToPage_clamps_witness :
  State.currentPage Sample.onPageFive = 5
  /\ State.currentPage (changeSearchTerm "alice" Sample.onPageFive) = 1
  /\ currentTotalPages Sample.onPageFive = 6
  /\ State.currentPage (goToPage 9 Sample.onPageFive) = 6.
Proof.
  pose proof (search_resets_page_and_goToPage_clamps Sample.onPageFive "alice" 9)
    as (Hsearch & _ & Hgo).
  split; [reflexivity|]. split.
  - apply Hsearch. vm_compute. discriminate.
  - split; [reflexivity|].
    apply Hgo; vm_compute; [discriminate | reflexivity].
Defined.

Lemma pageWindow_shape_witness :
  pageWindow 3 2 = [1; 2; 3]
  /\ pageWindow 10 2 = [1; 2; 3; 4; 5]
  /\ pageWindow 10 8 = [6; 7; 8; 9; 10]
  /\ pageWindow 10 5 = [3; 4; 5; 6; 7].
Proof.
  pose proof (pageWindow_shape 3 2) as (_ & Hall & _).
  pose proof (pageWindow_shape 10 2) as (_ & _ & Hfirst & _).
  pose proof (pageWindow_shape 10 8) as (_ & _ & _ & Hlast & _).
  pose proof (pageWindow_shape 10 5) as (_ & _ & _ & _ & Hmiddle).
  split; [|split; [|split]].
  - apply Hall. lia.
  - apply Hfirst; lia.
  - apply Hlast; lia.
  - apply Hmiddle; lia.
Defined.

Lemma commentsWithEdits_overlay_witness :
  exists c',
    commentsWithEdits Sample.bobEdits [Sample.alice] !! 0%nat = Some c'
    /\ Comment.name c' = "Bob"
    /\ Comment.body c' = "hello".
Proof.
  destruct (proj2 (commentsWithEdits_overlay Sample.bobEdits [Sample.alice])
                  0%nat Sample.alice eq_refl)
    as (c' & Hc' & _ & _ & _ & _ & Hsaved).
  destruct (Hsaved (Edit.mk (Some "Bob") None) eq_refl) as (Hname & _ & _ & Hbody).
  exists c'. split; [exact Hc'|]. split.
  - apply Hname; [reflexivity | discriminate].
  - apply Hbody. left. reflexivity.
Defined.

Lemma saveEdit_blank_is_noop_witness :
  JsString.trim (State.editValue Sample.blankDraft) = EmptyString
  /\ saveEdit codecJSON 7 Field.name (Sample.blankDraft, Sample.noItem)
     = Some (Sample.blankDraft, Sample.noItem).
Proof.
  split; [reflexivity|].
  apply saveEdit_blank_is_noop. reflexivity.
Defined.

Lemma saveEdit_persists_trimmed_value_witness :
  exists st' storage',
    saveEdit codecJSON 7 Field.name (Sample.editing, Sample.noItem)
    = Some (st', storage')
    /\ Storage.writes storage' = [Codec.stringify Sample.bobEdits]
    /\ Sample.bobEdits !! 7 = Some (Edit.mk (Some "Bob") None)
    /\ exists c',
         State.comments
           (fetchData codecJSON (Responded true (Some [Sample.alice]))
                      (Responded true (Some [Sample.post])) storage'
                      State.initial) !! 0%nat = Some c'
         /\ Comment.name c' = "Bob".
Proof.
  destruct (saveEdit_persists_trimmed_value codecJSON 7 Field.name
              Sample.editing Sample.noItem ∅)
    as (st' & storage' & Hsave & Hwrites & _ & Hentry & _ & _ & _ & Hreload).
  - apply codec_laws.
  - vm_compute. discriminate.
  - simpl. left. reflexivity.
  - simpl. apply NoDup_singleton.
  - reflexivity.
  - exists st', storage'. split; [exact Hsave|]. split; [exact Hwrites|].
    split; [exact Hentry|].
    destruct (Hreload [Sample.alice] [Sample.post] State.initial)
      as [_ Hmerged].
    destruct (Hmerged 0%nat Sample.alice eq_refl eq_refl) as (c' & Hc' & _ & Hname).
    exists c'. split; [exact Hc' | exact Hname].
Defined.

Lemma fetchData_no_partial_success_witness :
  State.error
    (fetchData codecJSON Rejected (Responded true (Some [Sample.post]))
               Sample.noItem State.initial) = Some loadError
  /\ fetchData codecJSON Rejected (Responded true (Some [Sample.post]))
               Sample.noItem State.initial
     = fetchData codecJSON Rejected (Responded false None)
                 Sample.noItem State.initial
  /\ State.posts
       (fetchData codecJSON Rejected (Responded true (Some [Sample.post]))
                  Sample.noItem State.initial) = [].
Proof.
  destruct (fetchData_no_partial_success codecJSON
              Rejected Rejected (Responded true (Some [Sample.post]))
              (Responded false None) Sample.noItem State.initial)
    as (Herr & Hsame & _ & Hposts).
  - left. exact I.
  - exact I.
  - left. reflexivity.
  - split; [now rewrite Herr|]. split; [exact Hsame | exact Hposts].
Defined.

Lemma fetchData_overlay_read_witness :
  State.comments
    (fetchData codecJSON (Responded true (Some [Sample.alice]))
               (Responded true (Some [Sample.post])) Sample.noItem
               State.initial) = [Sample.alice]
  /\ State.error
       (fetchData codecJSON (Responded true (Some [Sample.alice]))
                  (Responded true (Some [Sample.post])) Sample.malformed
                  State.initial) = Some loadError.
Proof.
  split.
  - apply (fetchData_overlay_read codecJSON [Sample.alice] [Sample.post]
             Sample.noItem State.initial). left. reflexivity.
  - apply (proj2 (fetchData_overlay_read codecJSON [Sample.alice] [Sample.post]
                    Sample.malformed State.initial) "{oops").
    + reflexivity.
    + discriminate.
    + vm_compute. reflexivity.
Defined.

(** ** Where the code departs from the specification *)

(** C1 as stated: an entry whose name is present replaces the name. An entry
    whose name is the empty string does not: the fetched name stays. *)
Lemma commentsWithEdits_empty_override_counterexample :
  Sample.emptyOverride !! Comment.id Sample.alice
  = Some (Edit.mk (Some EmptyString) None)
  /\ commentsWithEdits Sample.emptyOverride [Sample.alice] = [Sample.alice]
  /\ ~ (forall (edits : Edits) (commentsData : list Comment.t) (i : nat)
               (c : Comment.t) (savedEdit : Edit.t) (v : string),
          commentsData !! i = Some c ->
          edits !! Comment.id c = Some savedEdit ->
          Edit.name savedEdit = Some v ->
          Comment.name <$> commentsWithEdits edits commentsData !! i = Some v).
Proof.
  split; [reflexivity|]. split; [reflexivity|].
  intros H.
  specialize (H Sample.emptyOverride [Sample.alice] 0%nat Sample.alice
                (Edit.mk (Some EmptyString) None) EmptyString
                eq_refl eq_refl eq_refl).
  vm_compute in H. discriminate H.
Qed.

(** C4 as stated: a stored text that does not parse is read as the empty
    overlay and no error shows. On such a text the startup ends with the
    error message set and without the fetched comments. *)
Lemma fetchData_malformed_overlay_counterexample :
  let loaded :=
    fetchData codecJSON (Responded true (Some [Sample.alice]))
              (Responded true (Some [Sample.post])) Sample.malformed
              State.initial in
  parse codecJSON "{oops" = None
  /\ State.error loaded = Some loadError
  /\ State.comments loaded = []
  /\ ~ (State.error loaded = None /\ State.comments loaded = [Sample.alice]).
Proof.
  vm_compute. repeat split. intros [H _]. discriminate H.
Qed.

(** C9 as stated: on one of the first 5 pages the window starts at 1, and on
    one of the last 5 pages it ends at the last page. With 10 pages, the
    window of page 4 starts at 2 and the window of page 7 ends at 9. *)
Lemma pageWindow_first_last_five_counterexample :
  pageWindow 10 4 = [2; 3; 4; 5; 6]
  /\ pageWindow 10 7 = [5; 6; 7; 8; 9]
  /\ ~ (forall tp cp, 5 < tp -> 1 <= cp <= 5 ->
                      head (pageWindow tp cp) = Some 1)
  /\ ~ (forall tp cp, 5 < tp -> tp - 4 <= cp <= tp ->
                      last (pageWindow tp cp) = Some tp).
Proof.
  split; [reflexivity|]. split; [reflexivity|]. split.
  - intros H. specialize (H 10 4 ltac:(lia) ltac:(lia)). discriminate H.
  - intros H. specialize (H 10 7 ltac:(lia) ltac:(lia)). discriminate H.
Qed.

(** * Further properties *)

(** ** Post titles *)

Lemma orElse_nonempty (saved : option string) (fallback : string) :
  fallback <> EmptyString -> orElse saved fallback <> EmptyString.
Proof.
  intros Hf. unfold orElse. destruct saved as [s|]; [|exact Hf].
  destruct (JsString.truthy s) eqn:E; [|exact Hf]. now apply truthy_true.
Qed.

Lemma find_absent_post (posts : list Post.t) (postId : Z) :
  Forall (fun p => Post.id p <> postId) posts ->
  List.find (fun p => Post.id p =? postId) posts = None.
Proof.
  induction 1 as [|p posts Hp _ IH]; simpl; [reflexivity|].
  apply Z.eqb_neq in Hp. now rewrite Hp.
Qed.

Lemma find_first_post (pre suf : list Post.t) (p : Post.t) (postId : Z) :
  Forall (fun q => Post.id q <> postId) pre -> Post.id p = postId ->
  List.find (fun q => Post.id q =? postId) (pre ++ p :: suf)%list = Some p.
Proof.
  intros Hpre Hp. induction Hpre as [|q pre Hq _ IH]; simpl.
  - apply Z.eqb_eq in Hp. now rewrite Hp.
  - apply Z.eqb_neq in Hq. now rewrite Hq.
Qed.

(** X1. The title shown for a post reference is the title of the first post
    with that identifier; it is the placeholder when no post has the
    identifier, as before the posts arrive, and also when that first post has
    an empty title. *)
Theorem getPostTitle_first_match :
  forall (posts : list Post.t) (postId : Z),
    (Forall (fun p => Post.id p <> postId) posts ->
       getPostTitle posts postId = placeholderTitle)
    /\ (forall pre p suf,
          posts = (pre ++ p :: suf)%list ->
          Forall (fun q => Post.id q <> postId) pre ->
          Post.id p = postId ->
          (Post.title p <> EmptyString ->
             getPostTitle posts postId = Post.title p)
          /\ (Post.title p = EmptyString ->
                getPostTitle posts postId = placeholderTitle)).
Proof.
  intros posts postId. unfold getPostTitle. split.
  - intros H. now rewrite find_absent_post.
  - intros pre p suf -> Hpre Hp. rewrite (find_first_post _ _ _ _ Hpre Hp).
    change (Post.title <$> Some p) with (Some (Post.title p)). split.
    + intros Ht. now apply orElse_saved.
    + intros Ht. apply orElse_fetched. right. now rewrite Ht.
Qed.

Lemma getPostTitle_first_match_witness :
  getPostTitle Scenario.posts 3 = placeholderTitle
  /\ getPostTitle Scenario.posts 1 = "first"
  /\ getPostTitle Scenario.posts 2 = placeholderTitle.
Proof.
  pose proof (getPostTitle_first_match Scenario.posts 3) as [Hnone _].
  pose proof (getPostTitle_first_match Scenario.posts 1) as [_ Hfirst].
  pose proof (getPostTitle_first_match Scenario.posts 2) as [_ Hblank].
  split; [|split].
  - apply Hnone. repeat constructor; discriminate.
  - apply (Hfirst [] (Post.mk 1 "first") [Post.mk 2 EmptyString; Post.mk 1 "shadowed"]);
      [reflexivity | constructor | reflexivity | discriminate].
  - apply (Hblank [Post.mk 1 "first"] (Post.mk 2 EmptyString) [Post.mk 1 "shadowed"]);
      [reflexivity | repeat constructor; discriminate | reflexivity | reflexivity].
Defined.

(** X2. The title shown for a post reference is never the empty string,
    whatever the posts are. *)
Theorem getPostTitle_never_empty :
  forall (posts : list Post.t) (postId : Z),
    getPostTitle posts postId <> EmptyString.
Proof.
  intros posts postId. unfold getPostTitle.
  apply orElse_nonempty. discriminate.
Qed.

Lemma getPostTitle_never_empty_witness :
  getPostTitle [Post.mk 2 EmptyString] 2 <> EmptyString.
Proof. exact (getPostTitle_never_empty [Post.mk 2 EmptyString] 2). Defined.

(** ** More on strings *)



Lemma isWhiteSpace_lowerChar (c : ascii) :
  JsString.isWhiteSpace (JsString.lowerChar c) = JsString.isWhiteSpace c.
Proof.
  destruct c as [[|] [|] [|] [|] [|] [|] [|] [|]]; reflexivity.
Qed.

Lemma allSpace_toLowerCase (s : string) :
  allSpace (JsString.toLowerCase s) = allSpace s.
Proof.
  induction s as [|c s IH]; [reflexivity|].
  cbn [JsString.toLowerCase allSpace].
  now rewrite isWhiteSpace_lowerChar, IH.
Qed.


Lemma allSpace_trimStart (s : string) :
  allSpace (JsString.trimStart s) = allSpace s.
Proof.
  induction s as [|c s IH]; [reflexivity|].
  cbn [JsString.trimStart]. destruct (JsString.isWhiteSpace c) eqn:E.
  - cbn [allSpace]. now rewrite E, IH.
  - reflexivity.
Qed.

Lemma trimEnd_empty (s : string) :
  JsString.trimEnd s = EmptyString <-> allSpace s = true.
Proof.
  induction s as [|c s IH]; [now split|].
  cbn [JsString.trimEnd allSpace]. rewrite andb_true_iff, <- IH.
  destruct (JsString.trimEnd s) as [|d r].
  - destruct (JsString.isWhiteSpace c); split; try tauto; try discriminate.
    intros [H _]. discriminate H.
  - split; [discriminate | intros [_ H]; discriminate H].
Qed.

Lemma trim_empty (s : string) :
  JsString.trim s = EmptyString <-> allSpace s = true.
Proof.
  unfold JsString.trim. now rewrite trimEnd_empty, allSpace_trimStart.
Qed.

Lemma trim_blank_dec (s : string) :
  {JsString.trim s = EmptyString} + {JsString.trim s <> EmptyString}.
Proof. destruct (JsString.trim s); [left | right]; congruence. Qed.

(** ** More on filtering *)

Lemma filter_twice {A : Type} (f : A -> bool) (l : list A) :
  List.filter f (List.filter f l) = List.filter f l.
Proof.
  induction l as [|x l IH]; simpl; [reflexivity|].
  destruct (f x) eqn:E; simpl; [rewrite E|]; now rewrite ?IH.
Qed.


Lemma filteredComments_sublist (term : string) (comments : list Comment.t) :
  sublist (filteredComments term comments) comments.
Proof.
  destruct (trim_blank_dec term) as [Hb|Hb].
  - now rewrite filteredComments_blank.
  - rewrite filteredComments_term by exact Hb. apply filter_sublist.
Qed.

(** X3. Whatever the search term, the filtered comments are a subsequence of
    the comments; filtering a second time with the same term changes nothing;
    and filtering two lists put end to end gives the two results put end to
    end. *)
Theorem filteredComments_subsequence :
  forall (term : string) (comments more : list Comment.t),
    sublist (filteredComments term comments) comments
    /\ filteredComments term (filteredComments term comments)
       = filteredComments term comments
    /\ filteredComments term (comments ++ more)%list
       = (filteredComments term comments ++ filteredComments term more)%list.
Proof.
  intros term comments more. split; [apply filteredComments_sublist|].
  destruct (trim_blank_dec term) as [Hb|Hb].
  - rewrite !(filteredComments_blank term) by exact Hb. split; reflexivity.
  - rewrite !(filteredComments_term term) by exact Hb. split.
    + apply filter_twice.
    + apply List.filter_app.
Qed.


(** X5. Two search terms that differ only in case give the same result on
    every list. *)
Theorem filteredComments_same_up_to_case :
  forall (term other : string) (comments : list Comment.t),
    JsString.toLowerCase term = JsString.toLowerCase other ->
    filteredComments term comments = filteredComments other comments.
Proof.
  intros term other comments Hcase.
  assert (Hblank : allSpace term = allSpace other).
  { rewrite <- (allSpace_toLowerCase term), Hcase. apply allSpace_toLowerCase. }
  destruct (trim_blank_dec term) as [Hb|Hb].
  - assert (Hb' : JsString.trim other = EmptyString).
    { apply trim_empty. rewrite <- Hblank. now apply trim_empty. }
    now rewrite !filteredComments_blank.
  - assert (Hb' : JsString.trim other <> EmptyString).
    { rewrite trim_empty in *. now rewrite <- Hblank. }
    rewrite !filteredComments_term by assumption. now rewrite Hcase.
Qed.

Lemma filteredComments_same_up_to_case_witness :
  JsString.toLowerCase "Alice@Example" = JsString.toLowerCase "aLICE@eXAMPLE"
  /\ filteredComments "Alice@Example" [Sample.first; Sample.alice]
     = filteredComments "aLICE@eXAMPLE" [Sample.first; Sample.alice].
Proof.
  split; [reflexivity|].
  apply filteredComments_same_up_to_case. reflexivity.
Defined.

(** ** More on pagination *)

Lemma page_length (p : Z) (filtered : list Comment.t) :
  1 <= p ->
  Z.of_nat (length (paginatedComments p filtered))
  = Z.min 10 (Z.max 0 (Z.of_nat (length filtered) - 10 * (p - 1))).
Proof.
  intros Hp. rewrite paginatedComments_take_drop by exact Hp.
  rewrite length_take, length_drop. lia.
Qed.

(** X6. The number of pages is the ceiling of a tenth of the number of
    filtered comments. It is 0 exactly when there is none, which is when the
    empty message is rendered; the navigation bar is rendered exactly when
    there are more than 10. *)
Theorem totalPages_ceiling :
  forall filtered : list Comment.t,
    10 * (totalPages filtered - 1) < Z.of_nat (length filtered)
                                   <= 10 * totalPages filtered
    /\ (totalPages filtered = 0 <-> filtered = [])
    /\ (showsEmptyState filtered = true <-> totalPages filtered = 0)
    /\ (showsPagination filtered = true <-> 10 < Z.of_nat (length filtered)).
Proof.
  intros filtered. pose proof (totalPages_covers filtered) as (H0 & Hle & Hlt).
  unfold showsEmptyState, showsPagination.
  rewrite Z.eqb_eq, Z.gtb_lt.
  split; [lia|]. split; [|split; lia].
  split.
  - intros E. destruct filtered; [reflexivity | simpl in *; lia].
  - intros ->. reflexivity.
Qed.

Lemma totalPages_ceiling_witness :
  totalPages Sample.many = 3
  /\ showsPagination Sample.many = true
  /\ (totalPages Sample.many = 0 <-> Sample.many = []).
Proof.
  destruct (totalPages_ceiling Sample.many) as (_ & Hzero & _ & Hnav).
  split; [reflexivity|]. split; [|exact Hzero].
  apply Hnav. vm_compute. reflexivity.
Defined.

(** X7. Every page before the last holds exactly 10 comments; the last page
    holds the remaining ones, between 1 and 10; a page after the last is
    empty, and so is page 0. *)
Theorem paginatedComments_sizes :
  forall (filtered : list Comment.t) (p : Z),
    (1 <= p < totalPages filtered ->
       length (paginatedComments p filtered) = 10%nat)
    /\ (1 <= p -> p = totalPages filtered ->
          Z.of_nat (length (paginatedComments p filtered))
          = Z.of_nat (length filtered) - 10 * (p - 1)
          /\ (1 <= length (paginatedComments p filtered) <= 10)%nat)
    /\ (totalPages filtered < p -> paginatedComments p filtered = [])
    /\ paginatedComments 0 filtered = [].
Proof.
  intros filtered p.
  pose proof (totalPages_covers filtered) as (H0 & Hle & Hlt).
  split; [|split; [|split]].
  - intros Hp. pose proof (page_length p filtered ltac:(lia)). lia.
  - intros Hp ->. pose proof (page_length _ filtered Hp). lia.
  - intros Hp. apply length_zero_iff_nil.
    pose proof (page_length p filtered ltac:(lia)). lia.
  - unfold paginatedComments, slice, relativeIndex, ITEMS_PER_PAGE. simpl.
    rewrite Z.min_l by lia.
    replace (Z.to_nat (0 - _)) with 0%nat by lia. reflexivity.
Qed.

Lemma paginatedComments_sizes_witness :
  length (paginatedComments 2 Sample.many) = 10%nat
  /\ length (paginatedComments 3 Sample.many) = 5%nat
  /\ paginatedComments 4 Sample.many = [].
Proof.
  pose proof (paginatedComments_sizes Sample.many 2) as (Hfull & _).
  pose proof (paginatedComments_sizes Sample.many 3) as (_ & Hlast & _).
  pose proof (paginatedComments_sizes Sample.many 4) as (_ & _ & Hafter & _).
  split; [|split].
  - apply Hfull. vm_compute. split; [discriminate | reflexivity].
  - apply Nat2Z.inj. apply Hlast; [discriminate | reflexivity].
  - apply Hafter. reflexivity.
Defined.

(** X8. On a page that exists, the line above the navigation bar numbers the
    rows that are shown: the page holds the comments numbered from
    [showingFrom] to [showingTo], counting the filtered comments from 1, and
    both numbers lie between 1 and the number of filtered comments. *)
Theorem showing_range_matches_page :
  forall (filtered : list Comment.t) (currentPage : Z),
    1 <= currentPage <= totalPages filtered ->
    1 <= showingFrom currentPage <= showingTo currentPage filtered
    /\ showingTo currentPage filtered <= Z.of_nat (length filtered)
    /\ paginatedComments currentPage filtered
       = take (Z.to_nat (showingTo currentPage filtered
                         - showingFrom currentPage + 1))
              (drop (Z.to_nat (showingFrom currentPage - 1)) filtered).
Proof.
  intros filtered cp Hcp.
  pose proof (totalPages_covers filtered) as (H0 & Hle & Hlt).
  unfold showingFrom, showingTo, ITEMS_PER_PAGE. split; [lia|]. split; [lia|].
  rewrite paginatedComments_take_drop by lia.
  replace (Z.to_nat ((cp - 1) * 10 + 1 - 1)) with (10 * Z.to_nat (cp - 1))%nat
    by lia.
  destruct (Z.le_gt_cases (cp * 10) (Z.of_nat (length filtered))) as [Hfull|Hpart].
  - rewrite Z.min_l by lia. f_equal. lia.
  - rewrite Z.min_r by lia.
    rewrite !take_ge; [reflexivity | |]; rewrite length_drop; lia.
Qed.

Lemma showing_range_matches_page_witness :
  1 <= 3 <= totalPages Sample.many
  /\ showingFrom 3 = 21
  /\ showingTo 3 Sample.many = 25
  /\ paginatedComments 3 Sample.many = drop 20 Sample.many.
Proof.
  assert (H : 1 <= 3 <= totalPages Sample.many)
    by (vm_compute; split; discriminate).
  split; [exact H|]. split; [reflexivity|]. split; [reflexivity|].
  exact (proj2 (proj2 (showing_range_matches_page Sample.many 3 H))).
Defined.

(** ** More on navigation *)

(** X9. On a page that exists, the page buttons are consecutive page
    numbers, [min 5 totalPages] of them, all between 1 and [totalPages], and
    the current page is one of them. *)
Theorem pageWindow_valid :
  forall tp cp : Z,
    1 <= cp <= tp ->
    In cp (pageWindow tp cp)
    /\ (forall n, In n (pageWindow tp cp) -> 1 <= n <= tp)
    /\ (exists first, pageWindow tp cp = seqZ first (Z.min 5 tp))
    /\ NoDup (pageWindow tp cp).
Proof.
  intros tp cp Hcp. rewrite pageWindow_seqZ.
  set (a := fst (pageRange tp cp)). set (b := snd (pageRange tp cp)).
  assert (H : 1 <= a /\ a <= cp <= b /\ b <= tp /\ b - a + 1 = Z.min 5 tp).
  { subst a b. unfold pageRange.
    destruct (Z.gtb_spec tp 5);
      [destruct (Z.leb_spec cp 3); [|destruct (Z.geb_spec cp (tp - 2))]|];
      cbn [fst snd]; lia. }
  destruct H as (Ha & Hin & Hb & Hlen).
  split; [|split; [|split]].
  - apply list_elem_of_In, elem_of_seqZ. lia.
  - intros n Hn. apply list_elem_of_In, elem_of_seqZ in Hn. lia.
  - exists a. now rewrite Hlen.
  - apply NoDup_seqZ.
Qed.

Lemma pageWindow_valid_witness :
  1 <= 7 <= 10
  /\ In 7 (pageWindow 10 7)
  /\ NoDup (pageWindow 10 7).
Proof.
  assert (H : 1 <= 7 <= 10) by lia.
  split; [exact H|].
  destruct (pageWindow_valid 10 7 H) as (Hin & _ & _ & Hnd).
  split; [exact Hin | exact Hnd].
Defined.

(** X10. On a page that exists, every rendered button does what it shows: a
    page button leads to its page, Previous leads to the page before unless
    it is disabled, Next leads to the page after unless it is disabled, and a
    disabled button would have left the page as it is. *)
Theorem navigation_buttons_land :
  forall st : State.t,
    let cp := State.currentPage st in
    let tp := currentTotalPages st in
    1 <= cp <= tp ->
    (forall n, In n (pageWindow tp cp) ->
               State.currentPage (goToPage n st) = n)
    /\ State.currentPage (goToPage (cp - 1) st)
       = (if previousDisabled cp then cp else cp - 1)
    /\ State.currentPage (goToPage (cp + 1) st)
       = (if nextDisabled cp tp then cp else cp + 1).
Proof.
  intros st cp tp Hcp. split; [|split].
  - intros n Hn.
    assert (1 <= n <= tp) as Hrange.
    { rewrite pageWindow_seqZ in Hn.
      apply list_elem_of_In, elem_of_seqZ in Hn. revert Hn.
      unfold pageRange.
      destruct (Z.gtb_spec tp 5);
        [destruct (Z.leb_spec cp 3); [|destruct (Z.geb_spec cp (tp - 2))]|];
        cbn [fst snd]; lia. }
    unfold goToPage. cbn [State.currentPage State.setCurrentPage].
    fold tp. lia.
  - unfold goToPage, previousDisabled.
    cbn [State.currentPage State.setCurrentPage]. fold tp cp.
    destruct (Z.eqb_spec cp 1); lia.
  - unfold goToPage, nextDisabled.
    cbn [State.currentPage State.setCurrentPage]. fold tp cp.
    destruct (Z.eqb_spec cp tp); lia.
Qed.

Lemma navigation_buttons_land_witness :
  State.currentPage (goToPage 6 Sample.onPageFive) = 6
  /\ State.currentPage (goToPage 4 Sample.onPageFive) = 4.
Proof.
  assert (H : 1 <= State.currentPage Sample.onPageFive
              <= currentTotalPages Sample.onPageFive)
    by (vm_compute; split; discriminate).
  destruct (navigation_buttons_land Sample.onPageFive H) as (_ & Hprev & Hnext).
  split; [exact Hnext | exact Hprev].
Defined.

(** X11. Navigation keeps no history: going to [p] and then to [q] gives the
    state that going to [q] gives, in particular going to the same page twice
    is going there once; it never leaves the current page below 1, and it
    changes neither the comments nor the search term. *)
Theorem goToPage_last_wins :
  forall (st : State.t) (p q : Z),
    goToPage q (goToPage p st) = goToPage q st
    /\ 1 <= State.currentPage (goToPage p st)
    /\ State.comments (goToPage p st) = State.comments st
    /\ State.searchTerm (goToPage p st) = State.searchTerm st.
Proof.
  intros st p q. split; [|split; [|split]]; try reflexivity.
  unfold goToPage. cbn [State.currentPage State.setCurrentPage]. lia.
Qed.

(** X12. A current page beyond the last page is not repaired by the
    component until the user navigates or changes the search: the table then
    has no row although comments match, and with a single page of matches no
    navigation bar is rendered either. Previous and Next, where rendered,
    both lead to the last page. *)
Theorem stale_page_shows_no_row :
  forall st : State.t,
    let filtered := filteredComments (State.searchTerm st) (State.comments st) in
    1 <= currentTotalPages st < State.currentPage st ->
    visibleComments st = []
    /\ showsEmptyState filtered = false
    /\ (currentTotalPages st = 1 -> showsPagination filtered = false)
    /\ State.currentPage (goToPage (State.currentPage st - 1) st)
       = currentTotalPages st
    /\ State.currentPage (goToPage (State.currentPage st + 1) st)
       = currentTotalPages st.
Proof.
  intros st filtered Hstale. unfold currentTotalPages in *. fold filtered in Hstale |- *.
  pose proof (totalPages_covers filtered) as (H0 & Hle & Hlt).
  split; [|split; [|split; [|split]]].
  - unfold visibleComments. fold filtered. apply length_zero_iff_nil.
    pose proof (page_length (State.currentPage st) filtered ltac:(lia)). lia.
  - unfold showsEmptyState. apply Z.eqb_neq. lia.
  - intros H1. unfold showsPagination. rewrite H1. reflexivity.
  - unfold goToPage, currentTotalPages.
    cbn [State.currentPage State.setCurrentPage]. fold filtered. lia.
  - unfold goToPage, currentTotalPages.
    cbn [State.currentPage State.setCurrentPage]. fold filtered. lia.
Qed.

Lemma stale_page_shows_no_row_witness :
  exists st storage,
    run codecJSON Scenario.renameLastRow (Scenario.loaded, Sample.noItem)
    = Some (st, storage)
    /\ State.currentPage st = 2
    /\ currentTotalPages st = 1
    /\ visibleComments st = []
    /\ length (filteredComments (State.searchTerm st) (State.comments st)) = 10%nat.
Proof.
  destruct (run codecJSON Scenario.renameLastRow (Scenario.loaded, Sample.noItem))
    as [[st storage]|] eqn:Hrun; [|vm_compute in Hrun; discriminate Hrun].
  exists st, storage. split; [reflexivity|].
  assert (Hst : st = State.mk (List.map (editedComment 11 Field.name "x") Scenario.eleven)
                      [Sample.post] false None "n" 2 None EmptyString).
  { vm_compute in Hrun. injection Hrun as <- _. reflexivity. }
  assert (Hcp : State.currentPage st = 2) by (rewrite Hst; reflexivity).
  assert (Htp : currentTotalPages st = 1) by (rewrite Hst; reflexivity).
  split; [exact Hcp|]. split; [exact Htp|]. split.
  - apply (stale_page_shows_no_row st). rewrite Hcp, Htp. lia.
  - rewrite Hst. reflexivity.
Defined.

(** ** What trimming leaves *)

Lemma trimStart_first (s r : string) (c : ascii) :
  JsString.trimStart s = String c r -> JsString.isWhiteSpace c = false.
Proof.
  induction s as [|d s IH]; [discriminate|].
  cbn [JsString.trimStart]. destruct (JsString.isWhiteSpace d) eqn:E.
  - exact IH.
  - intros [= <- _]. exact E.
Qed.

Lemma trimEnd_first (s : string) (c : ascii) :
  JsString.isWhiteSpace c = false ->
  exists r, JsString.trimEnd (String c s) = String c r.
Proof.
  intros Hc. cbn [JsString.trimEnd].
  destruct (JsString.trimEnd s); rewrite ?Hc; eauto.
Qed.

Lemma trimEnd_last (s : string) (c : ascii) :
  lastChar (JsString.trimEnd s) = Some c -> JsString.isWhiteSpace c = false.
Proof.
  induction s as [|d s IH]; [discriminate|].
  cbn [JsString.trimEnd]. destruct (JsString.trimEnd s) as [|e r].
  - destruct (JsString.isWhiteSpace d) eqn:E; [discriminate|].
    intros [= <-]. exact E.
  - exact IH.
Qed.

Lemma trim_trimmed (s : string) :
  JsString.trim s <> EmptyString -> trimmed (JsString.trim s).
Proof.
  intros Hne. split; [exact Hne|]. split.
  - unfold JsString.trim in *. intros c Hc.
    destruct (JsString.trimStart s) as [|d r] eqn:E; [now destruct Hne|].
    pose proof (trimStart_first _ _ _ E) as Hd.
    destruct (trimEnd_first r d Hd) as [r' Hr]. rewrite Hr in Hc.
    now injection Hc as <-.
  - intros c. apply trimEnd_last.
Qed.

Lemma trimEnd_fixed (s : string) :
  s <> EmptyString ->
  (forall c, lastChar s = Some c -> JsString.isWhiteSpace c = false) ->
  JsString.trimEnd s = s.
Proof.
  induction s as [|d s IH]; [congruence|]. intros _ Hlast.
  cbn [JsString.trimEnd]. destruct s as [|e s].
  - cbn. now rewrite (Hlast d eq_refl).
  - rewrite IH; [reflexivity | discriminate | exact Hlast].
Qed.

Lemma trimmed_fixed (s : string) : trimmed s -> JsString.trim s = s.
Proof.
  intros (Hne & Hfirst & Hlast). unfold JsString.trim.
  destruct s as [|c s]; [congruence|].
  cbn [JsString.trimStart]. rewrite (Hfirst c eq_refl).
  now apply trimEnd_fixed.
Qed.

(** ** More on saving *)

Lemma saveComments_map (JSON : Json) (id : Z) (field : Field.t) (value : string)
    (prev : list Comment.t) :
  forall (storage storage' : Storage.t) (comments : list Comment.t),
    saveComments JSON id field value prev storage = Some (comments, storage') ->
    comments = List.map (editedComment id field value) prev.
Proof.
  induction prev as [|c prev IH]; intros storage storage' comments H.
  - now injection H as <- _.
  - cbn [saveComments] in H. cbn [List.map]. unfold editedComment at 1.
    destruct (Comment.id c =? id).
    + destruct (persistEdit JSON id field value storage) as [s1|];
        [|discriminate H]. cbn [mbind option_bind] in H.
      destruct (saveComments JSON id field value prev s1) as [[rest s2]|] eqn:E;
        [|discriminate H]. cbn [mbind option_bind] in H.
      injection H as <- _. now rewrite (IH _ _ _ E).
    + destruct (saveComments JSON id field value prev storage) as [[rest s2]|] eqn:E;
        [|discriminate H]. cbn [mbind option_bind] in H.
      injection H as <- _. now rewrite (IH _ _ _ E).
Qed.

Lemma nonblank_isEmpty (s : string) :
  JsString.trim s <> EmptyString -> JsString.isEmpty (JsString.trim s) = false.
Proof. destruct (JsString.trim s); [congruence | reflexivity]. Qed.

(** X13. When a save with a draft that is not blank goes through, the
    comment list is the previous one with the trimmed draft in the field of
    every comment that has the identifier and every other comment as it was;
    that value is not empty and neither starts nor ends with white space;
    the editor is closed with an empty draft; search term, current page,
    posts and the loading and error flags are as before. *)
Theorem saveEdit_memory_effect :
  forall (JSON : Json) (id : Z) (field : Field.t)
         (st st' : State.t) (storage storage' : Storage.t),
    JsString.trim (State.editValue st) <> EmptyString ->
    saveEdit JSON id field (st, storage) = Some (st', storage') ->
    State.comments st'
    = List.map (editedComment id field (JsString.trim (State.editValue st)))
               (State.comments st)
    /\ trimmed (JsString.trim (State.editValue st))
    /\ State.editingCell st' = None
    /\ State.editValue st' = EmptyString
    /\ State.searchTerm st' = State.searchTerm st
    /\ State.currentPage st' = State.currentPage st
    /\ State.posts st' = State.posts st
    /\ State.loading st' = State.loading st
    /\ State.error st' = State.error st.
Proof.
  intros JSON id field st st' storage storage' Hne H.
  unfold saveEdit in H. rewrite (nonblank_isEmpty _ Hne) in H.
  destruct (saveComments JSON id field _ (State.comments st) storage)
    as [[cs s1]|] eqn:E; [|discriminate H].
  cbn [mbind option_bind] in H. injection H as <- _.
  rewrite (saveComments_map _ _ _ _ _ _ _ _ E).
  split; [reflexivity|]. split; [now apply trim_trimmed|]. repeat split.
Qed.

Lemma saveEdit_memory_effect_witness :
  exists st' storage',
    saveEdit codecJSON 7 Field.name (Sample.editing, Sample.noItem)
    = Some (st', storage')
    /\ State.comments st'
       = [Comment.mk 7 "Bob" "alice@example.com" "hello" 1]
    /\ State.editingCell st' = None.
Proof.
  destruct (saveEdit codecJSON 7 Field.name (Sample.editing, Sample.noItem))
    as [[st' storage']|] eqn:Hsave; [|vm_compute in Hsave; discriminate Hsave].
  exists st', storage'. split; [reflexivity|].
  assert (Hne : JsString.trim (State.editValue Sample.editing) <> EmptyString)
    by (vm_compute; discriminate).
  destruct (saveEdit_memory_effect codecJSON 7 Field.name Sample.editing st'
              Sample.noItem storage' Hne Hsave) as (Hcs & _ & Hcell & _).
  split; [exact Hcs | exact Hcell].
Defined.

Lemma setComments_same (st : State.t) :
  State.setComments (State.comments st) st = st.
Proof. now destruct st. Qed.

Lemma editedComment_absent (id : Z) (field : Field.t) (value : string)
    (comments : list Comment.t) :
  Forall (absent id) comments ->
  List.map (editedComment id field value) comments = comments.
Proof.
  induction 1 as [|c cs Hc _ IH]; [reflexivity|].
  cbn [List.map]. unfold editedComment at 1.
  apply Z.eqb_neq in Hc. now rewrite Hc, IH.
Qed.

(** X14. Confirming an edit for an identifier that no comment of the list
    has does what Cancel does: the editor closes, the comments are as they
    were, and the storage is neither read nor written, whatever it holds. *)
Theorem saveEdit_absent_id_cancels :
  forall (JSON : Json) (id : Z) (field : Field.t)
         (st : State.t) (storage : Storage.t),
    JsString.trim (State.editValue st) <> EmptyString ->
    Forall (absent id) (State.comments st) ->
    saveEdit JSON id field (st, storage) = Some (cancelEdit st, storage).
Proof.
  intros JSON id field st storage Hne Habs.
  unfold saveEdit. rewrite (nonblank_isEmpty _ Hne).
  rewrite (saveComments_absent _ _ _ _ _ _ Habs). cbn [mbind option_bind].
  now rewrite setComments_same.
Qed.

Lemma saveEdit_absent_id_cancels_witness :
  saveEdit codecJSON 8 Field.body (Sample.editing, Sample.malformed)
  = Some (cancelEdit Sample.editing, Sample.malformed).
Proof.
  apply saveEdit_absent_id_cancels.
  - vm_compute. discriminate.
  - repeat constructor. discriminate.
Defined.

Lemma saveComments_unreadable (JSON : Json) (id : Z) (field : Field.t)
    (value : string) (comments : list Comment.t) (storage : Storage.t) :
  In id (List.map Comment.id comments) ->
  parse JSON (orEmptyObject (Storage.getItem storage)) = None ->
  saveComments JSON id field value comments storage = None.
Proof.
  intros Hin Hparse. induction comments as [|c cs IH]; [destruct Hin|].
  cbn [saveComments]. destruct (Z.eqb_spec (Comment.id c) id) as [E|E].
  - unfold persistEdit. now rewrite Hparse.
  - destruct Hin as [Hin|Hin]; [contradiction|]. now rewrite (IH Hin).
Qed.

(** X15. When the stored overlay is a text that [JSON.parse] rejects,
    confirming an edit of a comment of the list with a draft that is not
    blank throws: the exception of [JSON.parse] leaves the state update
    uncaught. *)
Theorem saveEdit_throws_on_unreadable_overlay :
  forall (JSON : Json) (id : Z) (field : Field.t)
         (st : State.t) (storage : Storage.t) (text : string),
    JsString.trim (State.editValue st) <> EmptyString ->
    In id (List.map Comment.id (State.comments st)) ->
    Storage.getItem storage = Some text ->
    text <> EmptyString ->
    parse JSON text = None ->
    saveEdit JSON id field (st, storage) = None.
Proof.
  intros JSON id field st storage text Hne Hin Hitem Htext Hparse.
  unfold saveEdit. rewrite (nonblank_isEmpty _ Hne).
  rewrite saveComments_unreadable; [reflexivity | exact Hin |].
  rewrite Hitem. simpl. apply truthy_true in Htext. now rewrite Htext.
Qed.

Lemma saveEdit_throws_on_unreadable_overlay_witness :
  saveEdit codecJSON 7 Field.name (Sample.editing, Sample.malformed) = None.
Proof.
  apply (saveEdit_throws_on_unreadable_overlay codecJSON 7 Field.name
           Sample.editing Sample.malformed "{oops").
  - vm_compute. discriminate.
  - left. reflexivity.
  - reflexivity.
  - discriminate.
  - vm_compute. reflexivity.
Defined.

(** ** Saving on a lawful host *)

Lemma edit_set_twice (field : Field.t) (value : string) (e : Edit.t) :
  Edit.set field value (Edit.set field value e) = Edit.set field value e.
Proof. now destruct field. Qed.

Lemma savedOver_twice (id : Z) (field : Field.t) (value : string)
    (savedEdits : Edits) :
  savedOver id field value (savedOver id field value savedEdits)
  = savedOver id field value savedEdits.
Proof.
  unfold savedOver. rewrite lookup_insert_eq. simpl.
  now rewrite edit_set_twice, insert_insert_eq.
Qed.

Lemma repeat_shift {A : Type} (x : A) (n : nat) (l : list A) :
  (repeat x n ++ x :: l)%list = (repeat x (S n) ++ l)%list.
Proof. induction n as [|n IH]; simpl; [reflexivity | now rewrite IH]. Qed.

Lemma persistEdit_lawful (JSON : Json) (id : Z) (field : Field.t)
    (value : string) (storage : Storage.t) (savedEdits : Edits) :
  JsonLaws JSON -> holds JSON storage savedEdits ->
  persistEdit JSON id field value storage
  = Some (Storage.setItem
            (stringify JSON (savedOver id field value savedEdits)) storage)
  /\ holds JSON
       (Storage.setItem
          (stringify JSON (savedOver id field value savedEdits)) storage)
       (savedOver id field value savedEdits).
Proof.
  intros Hlaws Hholds. unfold holds in *. split.
  - unfold persistEdit. rewrite (parse_orEmptyObject JSON Hlaws), Hholds.
    reflexivity.
  - apply (reload_written JSON Hlaws).
Qed.

Lemma saveComments_lawful (JSON : Json) (id : Z) (field : Field.t)
    (value : string) :
  JsonLaws JSON ->
  forall (comments : list Comment.t) (storage : Storage.t) (savedEdits : Edits),
    holds JSON storage savedEdits ->
    exists storage',
      saveComments JSON id field value comments storage
      = Some (List.map (editedComment id field value) comments, storage')
      /\ Storage.writes storage'
         = (repeat (stringify JSON (savedOver id field value savedEdits))
                   (occurrences id comments) ++ Storage.writes storage)%list
      /\ holds JSON storage'
           (match occurrences id comments with
            | O => savedEdits
            | S _ => savedOver id field value savedEdits
            end).
Proof.
  intros Hlaws. induction comments as [|c cs IH]; intros storage savedEdits Hholds.
  - exists storage. repeat split. exact Hholds.
  - cbn [saveComments List.map]. unfold editedComment at 1.
    unfold occurrences. cbn [List.filter].
    destruct (Comment.id c =? id).
    + destruct (persistEdit_lawful JSON id field value storage savedEdits
                  Hlaws Hholds) as [Hp Hh].
      rewrite Hp. cbn [mbind option_bind].
      destruct (IH _ _ Hh) as (s' & Hs & Hw & Hh').
      exists s'. rewrite Hs. cbn [mbind option_bind]. split; [reflexivity|].
      rewrite savedOver_twice in Hw, Hh'. split.
      * rewrite Hw. cbn [Storage.setItem Storage.writes length].
        apply repeat_shift.
      * cbn [length]. now destruct (occurrences id cs).
    + destruct (IH _ _ Hholds) as (s' & Hs & Hw & Hh').
      exists s'. rewrite Hs. cbn [mbind option_bind]. now repeat split.
Qed.

(** X16. On a lawful host and a readable overlay, confirming a draft that is
    not blank always goes through. It writes the whole overlay once for every
    comment of the list that has the identifier, each time the same text: the
    stored overlay with the trimmed draft set in the entry of the identifier.
    With no such comment it writes nothing and the overlay stays as it is. *)
Theorem saveEdit_writes_per_occurrence :
  forall (JSON : Json) (id : Z) (field : Field.t)
         (st : State.t) (storage : Storage.t) (savedEdits : Edits),
    let value := JsString.trim (State.editValue st) in
    let edits := savedOver id field value savedEdits in
    JsonLaws JSON ->
    holds JSON storage savedEdits ->
    value <> EmptyString ->
    exists st' storage',
      saveEdit JSON id field (st, storage) = Some (st', storage')
      /\ Storage.writes storage'
         = (repeat (stringify JSON edits) (occurrences id (State.comments st))
            ++ Storage.writes storage)%list
      /\ (occurrences id (State.comments st) = 0%nat ->
            storage' = storage)
      /\ ((0 < occurrences id (State.comments st))%nat ->
            holds JSON storage' edits).
Proof.
  intros JSON id field st storage savedEdits value edits Hlaws Hholds Hne.
  subst edits value.
  destruct (saveComments_lawful JSON id field
              (JsString.trim (State.editValue st)) Hlaws (State.comments st)
              storage savedEdits Hholds) as (s' & Hs & Hw & Hh).
  eexists _, s'. split; [|split; [|split]].
  - unfold saveEdit. rewrite (nonblank_isEmpty _ Hne), Hs.
    reflexivity.
  - exact Hw.
  - intros H0. rewrite H0 in Hw. simpl in Hw.
    assert (Habs : Forall (absent id) (State.comments st)).
    { apply Forall_forall. intros c Hc. unfold absent. intros E.
      unfold occurrences in H0. apply length_zero_iff_nil in H0.
      assert (In c (List.filter (fun c => Comment.id c =? id) (State.comments st))).
      { apply filter_In. split; [now apply list_elem_of_In | now apply Z.eqb_eq]. }
      rewrite H0 in H. destruct H. }
    rewrite (saveComments_absent _ _ _ _ _ _ Habs) in Hs. congruence.
  - intros Hpos. destruct (occurrences id (State.comments st)); [lia | exact Hh].
Qed.

Lemma saveEdit_writes_per_occurrence_witness :
  exists st' storage',
    saveEdit codecJSON 7 Field.name (Sample.editing, Sample.noItem)
    = Some (st', storage')
    /\ Storage.writes storage' = [Codec.stringify Sample.bobEdits].
Proof.
  destruct (saveEdit_writes_per_occurrence codecJSON 7 Field.name
              Sample.editing Sample.noItem ∅)
    as (st' & storage' & Hsave & Hw & _).
  - apply codec_laws.
  - reflexivity.
  - vm_compute. discriminate.
  - exists st', storage'. split; [exact Hsave | exact Hw].
Defined.

Lemma orElse_some (v fetched : string) :
  v <> EmptyString -> orElse (Some v) fetched = v.
Proof. intros H. now apply orElse_saved. Qed.

Lemma applyEdit_set (field : Field.t) (value : string) (e : Edit.t)
    (c : Comment.t) :
  value <> EmptyString ->
  applyEdit (Edit.set field value e) c
  = setCommentField field value (applyEdit e c).
Proof.
  intros Hv. destruct field, e as [n b]; unfold applyEdit, Edit.set;
    cbn [Edit.name Edit.body setCommentField Comment.id Comment.name
         Comment.email Comment.body Comment.postId];
    now rewrite (orElse_some _ _ Hv).
Qed.

Lemma applyEdit_empty (c : Comment.t) : applyEdit Edit.empty c = c.
Proof. now destruct c. Qed.

Lemma edited_merge (id : Z) (field : Field.t) (value : string)
    (savedEdits : Edits) (fetched : list Comment.t) :
  value <> EmptyString ->
  List.map (editedComment id field value) (commentsWithEdits savedEdits fetched)
  = commentsWithEdits (savedOver id field value savedEdits) fetched.
Proof.
  intros Hv. unfold commentsWithEdits. rewrite List.map_map.
  apply map_ext. intros c. unfold editedComment, savedOver.
  assert (Hid : Comment.id (match savedEdits !! Comment.id c with
                            | Some savedEdit => applyEdit savedEdit c
                            | None => c
                            end) = Comment.id c)
    by (destruct (savedEdits !! Comment.id c); reflexivity).
  rewrite Hid. destruct (Z.eqb_spec (Comment.id c) id) as [E|E].
  - rewrite E, lookup_insert_eq. rewrite <- E.
    destruct (savedEdits !! Comment.id c) as [e|]; simpl.
    + symmetry. now apply applyEdit_set.
    + rewrite applyEdit_set by exact Hv. now rewrite applyEdit_empty.
  - rewrite lookup_insert_ne by congruence. reflexivity.
Qed.

(** X17. The list on screen stays the merge of the stored overlay onto the
    fetched comments: on a lawful host, if the comment list is the merge of
    the readable stored overlay onto some fetched list, then after confirming
    a draft that is not blank it is the merge of the overlay now stored onto
    the same fetched list, so that a reload that fetches the same comments
    shows the same list. *)
Theorem saveEdit_keeps_view_consistent :
  forall (JSON : Json) (id : Z) (field : Field.t)
         (st : State.t) (storage : Storage.t) (savedEdits : Edits)
         (fetched : list Comment.t),
    JsonLaws JSON ->
    holds JSON storage savedEdits ->
    State.comments st = commentsWithEdits savedEdits fetched ->
    JsString.trim (State.editValue st) <> EmptyString ->
    exists st' storage' savedEdits',
      saveEdit JSON id field (st, storage) = Some (st', storage')
      /\ holds JSON storage' savedEdits'
      /\ State.comments st' = commentsWithEdits savedEdits' fetched.
Proof.
  intros JSON id field st storage savedEdits fetched Hlaws Hholds Hview Hne.
  destruct (saveComments_lawful JSON id field
              (JsString.trim (State.editValue st)) Hlaws (State.comments st)
              storage savedEdits Hholds) as (s' & Hs & _ & Hh).
  eexists _, s', _. split; [|split; [exact Hh|]].
  - unfold saveEdit. rewrite (nonblank_isEmpty _ Hne), Hs.
    reflexivity.
  - cbn [State.comments State.setEditValue State.setEditingCell State.setComments].
    destruct (occurrences id (State.comments st)) eqn:Hocc.
    + assert (Habs : Forall (absent id) (State.comments st)).
      { apply Forall_forall. intros c Hc E.
        unfold occurrences in Hocc. apply length_zero_iff_nil in Hocc.
        assert (In c (List.filter (fun c => Comment.id c =? id) (State.comments st)))
          by (apply filter_In; split; [now apply list_elem_of_In | now apply Z.eqb_eq]).
        rewrite Hocc in H. destruct H. }
      now rewrite editedComment_absent.
    + rewrite Hview. now apply edited_merge.
Qed.

Lemma saveEdit_keeps_view_consistent_witness :
  exists st' storage' savedEdits',
    saveEdit codecJSON 7 Field.name (Sample.editing, Sample.noItem)
    = Some (st', storage')
    /\ holds codecJSON storage' savedEdits'
    /\ State.comments st' = commentsWithEdits savedEdits' [Sample.alice].
Proof.
  apply (saveEdit_keeps_view_consistent codecJSON 7 Field.name Sample.editing
           Sample.noItem ∅ [Sample.alice]).
  - apply codec_laws.
  - reflexivity.
  - reflexivity.
  - vm_compute. discriminate.
Defined.

(** ** The overlay the component writes *)

Lemma trimmedOverlay_savedOver (id : Z) (field : Field.t) (value : string)
    (savedEdits : Edits) :
  trimmedOverlay savedEdits -> trimmed value ->
  trimmedOverlay (savedOver id field value savedEdits).
Proof.
  intros Hsaved Hvalue id' e f v Hl Hg. unfold savedOver in Hl.
  destruct (Z.eq_dec id id') as [<-|Hne].
  - rewrite lookup_insert_eq in Hl. injection Hl as <-.
    destruct (savedEdits !! id) as [e0|] eqn:E; simpl in Hg.
    + destruct field, f; simpl in Hg;
        first [ injection Hg as <-; exact Hvalue
              | exact (Hsaved id e0 Field.name v E Hg)
              | exact (Hsaved id e0 Field.body v E Hg) ].
    + destruct field, f; simpl in Hg;
        first [ injection Hg as <-; exact Hvalue | discriminate Hg ].
  - rewrite lookup_insert_ne in Hl by exact Hne. exact (Hsaved _ _ _ _ Hl Hg).
Qed.

Lemma step_overlay (JSON : Json) (a : Action) (st st' : State.t)
    (storage storage' : Storage.t) (savedEdits : Edits) :
  JsonLaws JSON ->
  holds JSON storage savedEdits -> trimmedOverlay savedEdits ->
  step JSON a (st, storage) = Some (st', storage') ->
  exists savedEdits',
    holds JSON storage' savedEdits' /\ trimmedOverlay savedEdits'.
Proof.
  intros Hlaws Hholds Htrim Hstep.
  destruct a as [v|p|id f v|v|id f|]; cbn [step fst snd] in Hstep;
    try (injection Hstep as _ <-; now exists savedEdits).
  unfold saveEdit in Hstep.
  destruct (JsString.isEmpty (JsString.trim (State.editValue st))) eqn:Hblank.
  - injection Hstep as _ <-. now exists savedEdits.
  - assert (Hne : JsString.trim (State.editValue st) <> EmptyString).
    { intros E. apply isEmpty_spec in E. congruence. }
    destruct (saveComments_lawful JSON id f (JsString.trim (State.editValue st))
                Hlaws (State.comments st) storage savedEdits Hholds)
      as (s' & Hs & _ & Hh).
    rewrite Hs in Hstep. cbn [mbind option_bind] in Hstep.
    injection Hstep as _ <-. eexists. split; [exact Hh|].
    destruct (occurrences id (State.comments st)); [exact Htrim|].
    apply trimmedOverlay_savedOver; [exact Htrim | now apply trim_trimmed].
Qed.

(** X18. On a lawful host, the component only ever stores trimmed values:
    if the stored overlay is readable and each of its values is not empty
    and neither starts nor ends with white space, the same holds of the
    stored overlay after any sequence of actions that goes through. The
    empty storage is such a start. *)
Theorem run_keeps_overlay_trimmed :
  forall (JSON : Json) (actions : list Action) (st st' : State.t)
         (storage storage' : Storage.t) (savedEdits : Edits),
    JsonLaws JSON ->
    holds JSON storage savedEdits -> trimmedOverlay savedEdits ->
    run JSON actions (st, storage) = Some (st', storage') ->
    exists savedEdits',
      holds JSON storage' savedEdits' /\ trimmedOverlay savedEdits'.
Proof.
  intros JSON actions. induction actions as [|a actions IH];
    intros st st' storage storage' savedEdits Hlaws Hholds Htrim Hrun.
  - injection Hrun as _ <-. now exists savedEdits.
  - cbn [run] in Hrun.
    destruct (step JSON a (st, storage)) as [[st1 s1]|] eqn:Hstep;
      [|discriminate Hrun]. cbn [mbind option_bind] in Hrun.
    destruct (step_overlay JSON a st st1 storage s1 savedEdits Hlaws Hholds
                Htrim Hstep) as (saved1 & Hh1 & Ht1).
    exact (IH st1 st' s1 storage' saved1 Hlaws Hh1 Ht1 Hrun).
Qed.

Lemma run_keeps_overlay_trimmed_witness :
  exists st' storage' savedEdits',
    run codecJSON Scenario.renameLastRow (Scenario.loaded, Sample.noItem)
    = Some (st', storage')
    /\ holds codecJSON storage' savedEdits'
    /\ trimmedOverlay savedEdits'.
Proof.
  destruct (run codecJSON Scenario.renameLastRow (Scenario.loaded, Sample.noItem))
    as [[st' storage']|] eqn:Hrun; [|vm_compute in Hrun; discriminate Hrun].
  destruct (run_keeps_overlay_trimmed codecJSON Scenario.renameLastRow
              Scenario.loaded st' Sample.noItem storage' ∅)
    as (saved' & Hh & Ht).
  - apply codec_laws.
  - reflexivity.
  - intros id e f v Hl. rewrite lookup_empty in Hl. discriminate Hl.
  - exact Hrun.
  - exists st', storage', saved'. split; [reflexivity|]. split; assumption.
Defined.

(** X19. On an overlay whose values are all trimmed, as the component
    writes them, the merge puts every value the overlay holds for a comment
    into that comment: the field of the merged comment is the overlay's
    value wherever the entry of its identifier has one. *)
Theorem commentsWithEdits_exact_on_trimmed :
  forall (edits : Edits) (commentsData : list Comment.t)
         (i : nat) (c : Comment.t) (savedEdit : Edit.t)
         (field : Field.t) (v : string),
    trimmedOverlay edits ->
    commentsData !! i = Some c ->
    edits !! Comment.id c = Some savedEdit ->
    Edit.get field savedEdit = Some v ->
    exists c',
      commentsWithEdits edits commentsData !! i = Some c'
      /\ getCommentField field c' = v.
Proof.
  intros edits commentsData i c savedEdit field v Htrim Hc He Hv.
  rewrite (commentsWithEdits_lookup _ _ _ _ Hc), He.
  eexists. split; [reflexivity|].
  apply applyEdit_field; [exact Hv|].
  exact (proj1 (Htrim _ _ _ _ He Hv)).
Qed.

Lemma commentsWithEdits_exact_on_trimmed_witness :
  exists c',
    commentsWithEdits Sample.bobEdits [Sample.alice] !! 0%nat = Some c'
    /\ getCommentField Field.name c' = "Bob".
Proof.
  apply (commentsWithEdits_exact_on_trimmed Sample.bobEdits [Sample.alice]
           0%nat Sample.alice (Edit.mk (Some "Bob") None) Field.name "Bob").
  - intros id e f v Hl Hg.
    destruct (Z.eq_dec id 7) as [->|Hne].
    + vm_compute in Hl. injection Hl as <-.
      destruct f; simpl in Hg; [|discriminate Hg]. injection Hg as <-.
      split; [discriminate|].
      split; intros c Hc; vm_compute in Hc; injection Hc as <-; reflexivity.
    + unfold Sample.bobEdits in Hl.
      rewrite lookup_singleton_ne in Hl by congruence. discriminate Hl.
  - reflexivity.
  - reflexivity.
  - reflexivity.
Defined.

(** ** What no action changes *)

Lemma preserved_refl (w : State.t * Storage.t) : preserved w w.
Proof. unfold preserved. repeat split; auto. now exists []. Qed.

Lemma preserved_trans (w1 w2 w3 : State.t * Storage.t) :
  preserved w1 w2 -> preserved w2 w3 -> preserved w1 w3.
Proof.
  intros (Hp1 & Hc1 & Ho1 & Hl1 & He1 & n1 & Hw1)
         (Hp2 & Hc2 & Ho2 & Hl2 & He2 & n2 & Hw2).
  unfold preserved. repeat split; try congruence; auto.
  exists (n2 ++ n1)%list. now rewrite Hw2, Hw1, app_assoc.
Qed.

Lemma saveComments_writes (JSON : Json) (id : Z) (field : Field.t)
    (value : string) (prev : list Comment.t) :
  forall (storage storage' : Storage.t) (comments : list Comment.t),
    saveComments JSON id field value prev storage = Some (comments, storage') ->
    exists new, Storage.writes storage' = (new ++ Storage.writes storage)%list.
Proof.
  induction prev as [|c prev IH]; intros storage storage' comments H.
  - injection H as _ <-. now exists [].
  - cbn [saveComments] in H. destruct (Comment.id c =? id).
    + unfold persistEdit in H.
      destruct (parse JSON (orEmptyObject (Storage.getItem storage))) as [e|];
        [|discriminate H]. cbn [mbind option_bind] in H.
      match type of H with
      | context [saveComments _ _ _ _ _ ?s] =>
          destruct (saveComments JSON id field value prev s)
            as [[rest s2]|] eqn:E; [|discriminate H]
      end.
      cbn [mbind option_bind] in H. injection H as _ <-.
      destruct (IH _ _ _ E) as [new Hnew].
      eexists (new ++ [_])%list. rewrite Hnew. cbn [Storage.setItem Storage.writes].
      now rewrite <- app_assoc.
    + destruct (saveComments JSON id field value prev storage)
        as [[rest s2]|] eqn:E; [|discriminate H].
      cbn [mbind option_bind] in H. injection H as _ <-. exact (IH _ _ _ E).
Qed.

Lemma fixedPart_edited (id : Z) (field : Field.t) (value : string)
    (comments : list Comment.t) :
  List.map fixedPart (List.map (editedComment id field value) comments)
  = List.map fixedPart comments.
Proof.
  rewrite List.map_map. apply map_ext. intros c. unfold editedComment.
  destruct (Comment.id c =? id); [|reflexivity]. now destruct field.
Qed.

Lemma step_preserved (JSON : Json) (a : Action) (w w' : State.t * Storage.t) :
  step JSON a w = Some w' -> preserved w w'.
Proof.
  destruct w as [st storage], w' as [st' storage'].
  destruct a as [v|p|id f v|v|id f|]; cbn [step fst snd]; intros H;
    try (injection H as <- <-; unfold preserved; cbn [fst snd];
         repeat split; auto; now exists []).
  - injection H as <- <-. unfold preserved. cbn [fst snd].
    unfold changeSearchTerm, searchTermEffect.
    destruct (String.eqb _ _); cbn;
      (split; [try lia; auto | repeat split; now exists []]).
  - injection H as <- <-. unfold preserved. cbn [fst snd].
    split; [intros _; unfold goToPage; cbn; lia |].
    repeat split. now exists [].
  - unfold saveEdit in H.
    destruct (JsString.isEmpty (JsString.trim (State.editValue st))).
    + injection H as <- <-. apply preserved_refl.
    + destruct (saveComments JSON id f _ (State.comments st) storage)
        as [[cs s1]|] eqn:E; [|discriminate H].
      cbn [mbind option_bind] in H. injection H as <- <-.
      unfold preserved. cbn [fst snd]. repeat split; auto.
      * cbn. rewrite (saveComments_map _ _ _ _ _ _ _ _ E).
        apply fixedPart_edited.
      * exact (saveComments_writes _ _ _ _ _ _ _ _ E).
Qed.

(** X20. Whatever the user does after loading, as long as no handler
    throws: the current page never goes below 1; the comments keep their
    number, their order and their identifiers, emails and post references,
    so only names and bodies can differ; the posts, the loading flag and the
    error are untouched; and nothing written to the storage is taken back. *)
Theorem run_preserves :
  forall (JSON : Json) (actions : list Action) (w w' : State.t * Storage.t),
    run JSON actions w = Some w' ->
    (1 <= State.currentPage (fst w) -> 1 <= State.currentPage (fst w'))
    /\ List.map fixedPart (State.comments (fst w'))
       = List.map fixedPart (State.comments (fst w))
    /\ State.posts (fst w') = State.posts (fst w)
    /\ State.loading (fst w') = State.loading (fst w)
    /\ State.error (fst w') = State.error (fst w)
    /\ exists new,
         Storage.writes (snd w') = (new ++ Storage.writes (snd w))%list.
Proof.
  intros JSON actions. change (forall w w', run JSON actions w = Some w' -> preserved w w').
  induction actions as [|a actions IH]; intros w w' Hrun.
  - injection Hrun as <-. apply preserved_refl.
  - cbn [run] in Hrun. destruct (step JSON a w) as [w1|] eqn:Hstep;
      [|discriminate Hrun]. cbn [mbind option_bind] in Hrun.
    exact (preserved_trans _ _ _ (step_preserved _ _ _ _ Hstep) (IH _ _ Hrun)).
Qed.

Lemma run_preserves_witness :
  exists w',
    run codecJSON Scenario.renameLastRow (Scenario.loaded, Sample.noItem) = Some w'
    /\ 1 <= State.currentPage (fst w')
    /\ List.map fixedPart (State.comments (fst w'))
       = List.map fixedPart Scenario.eleven.
Proof.
  destruct (run codecJSON Scenario.renameLastRow (Scenario.loaded, Sample.noItem))
    as [w'|] eqn:Hrun; [|vm_compute in Hrun; discriminate Hrun].
  exists w'. split; [reflexivity|].
  destruct (run_preserves codecJSON _ _ _ Hrun) as (Hpage & Hfixed & _).
  split; [apply Hpage; reflexivity | exact Hfixed].
Defined.

(** ** The editor *)

Lemma fieldEqb_eq (a b : Field.t) : fieldEqb a b = true <-> a = b.
Proof. destruct a, b; simpl; split; congruence. Qed.

(** X21. Opening the editor on a cell, typing, and cancelling leaves the
    component as it was when no edit was in progress. Opening the editor on
    another cell drops the draft of the first without saving it. While the
    editor is open, the input shows in the cell it was opened on, in every
    row with that identifier, and in no other cell. *)
Theorem edit_session :
  forall (st : State.t) (id id' : Z) (field field' : Field.t)
         (current current' draft : string),
    (State.editingCell st = None -> State.editValue st = EmptyString ->
       cancelEdit (State.setEditValue draft (startEdit id field current st)) = st)
    /\ startEdit id' field' current'
         (State.setEditValue draft (startEdit id field current st))
       = startEdit id' field' current' st
    /\ (forall c g,
          isEditing (State.editingCell
                       (State.setEditValue draft (startEdit id field current st)))
                    c g = true
          <-> Comment.id c = id /\ g = field).
Proof.
  intros st id id' field field' current current' draft. split; [|split].
  - destruct st. cbn. now intros -> ->.
  - reflexivity.
  - intros c g. cbn. rewrite andb_true_iff, Z.eqb_eq, fieldEqb_eq.
    split; intros [H1 H2]; split; congruence.
Qed.

Lemma edit_session_witness :
  cancelEdit (State.setEditValue "draft"
                (startEdit 7 Field.body "hello" Scenario.loaded))
  = Scenario.loaded.
Proof.
  apply (edit_session Scenario.loaded 7 7 Field.body Field.body
           "hello" "hello" "draft"); reflexivity.
Defined.

(** ** More on the merge and the startup *)

Lemma orElse_twice (saved : option string) (fetched : string) :
  orElse saved (orElse saved fetched) = orElse saved fetched.
Proof.
  destruct saved as [s|]; simpl; [|reflexivity].
  now destruct (JsString.truthy s).
Qed.

(** X22. Merging the same overlay a second time changes nothing, and an
    entry for an identifier that no fetched comment has, for instance of a
    comment that is gone from the server, has no effect on the merge. *)
Theorem commentsWithEdits_idempotent :
  forall (edits : Edits) (commentsData : list Comment.t),
    commentsWithEdits edits (commentsWithEdits edits commentsData)
    = commentsWithEdits edits commentsData
    /\ forall (id : Z) (e : Edit.t),
         Forall (absent id) commentsData ->
         commentsWithEdits (<[id := e]> edits) commentsData
         = commentsWithEdits edits commentsData.
Proof.
  intros edits commentsData. split.
  - unfold commentsWithEdits. rewrite List.map_map. apply map_ext. intros c.
    destruct (edits !! Comment.id c) as [e|] eqn:E.
    + cbn [applyEdit Comment.id]. rewrite E. unfold applyEdit.
      cbn [Comment.id Comment.name Comment.email Comment.body Comment.postId].
      now rewrite !orElse_twice.
    + now rewrite E.
  - intros id e Habs. unfold commentsWithEdits.
    apply map_ext_in. intros c Hc.
    assert (Hne : Comment.id c <> id).
    { rewrite Forall_forall in Habs. apply Habs. now apply list_elem_of_In. }
    now rewrite lookup_insert_ne by congruence.
Qed.

Lemma commentsWithEdits_idempotent_witness :
  commentsWithEdits (<[8 := Edit.mk (Some "Eve") None]> Sample.bobEdits)
                    [Sample.alice]
  = commentsWithEdits Sample.bobEdits [Sample.alice].
Proof.
  apply (commentsWithEdits_idempotent Sample.bobEdits [Sample.alice]).
  repeat constructor. discriminate.
Defined.



(** ** The rows on screen *)

Lemma slice_sublist {A : Type} (l : list A) (start count : Z) :
  0 <= count ->
  sublist (slice l start (start + count)) l
  /\ (length (slice l start (start + count)) <= Z.to_nat count)%nat.
Proof.
  intros Hcount. unfold slice. split.
  - etransitivity; [apply sublist_take | apply sublist_drop].
  - cbv zeta. rewrite length_take. unfold relativeIndex.
    generalize (length (drop (Z.to_nat (if start <? 0
                                        then Z.max (Z.of_nat (length l) + start) 0
                                        else Z.min start (Z.of_nat (length l)))) l)).
    intros n. destruct (Z.ltb_spec start 0), (Z.ltb_spec (start + count) 0); lia.
Qed.

(** X24. The rows on screen are at most 10 comments of the comment list, in
    the order of the list, whatever the current page is; and a comment is
    retained by the search exactly when it is on one of the pages 1 to
    [totalPages]. *)
Theorem visibleComments_sound_complete :
  forall st : State.t,
    let filtered := filteredComments (State.searchTerm st) (State.comments st) in
    sublist (visibleComments st) (State.comments st)
    /\ (length (visibleComments st) <= 10)%nat
    /\ forall c,
         In c filtered
         <-> exists p, 1 <= p <= totalPages filtered
                       /\ In c (paginatedComments p filtered).
Proof.
  intros st filtered. unfold visibleComments, paginatedComments. fold filtered.
  destruct (slice_sublist filtered
              ((State.currentPage st - 1) * ITEMS_PER_PAGE) ITEMS_PER_PAGE
              ltac:(unfold ITEMS_PER_PAGE; lia))
    as [Hsub Hlen].
  split; [|split].
  - etransitivity; [exact Hsub | apply filteredComments_sublist].
  - unfold ITEMS_PER_PAGE in *. lia.
  - intros c. fold (paginatedComments).
    rewrite <- (concat_paginated filtered (totalPages filtered)) at 1 by lia.
    rewrite in_concat. split.
    + intros (l & Hl & Hc). apply in_map_iff in Hl as (p & <- & Hp).
      apply list_elem_of_In, elem_of_seqZ in Hp. exists p. split; [lia | exact Hc].
    + intros (p & Hp & Hc). exists (paginatedComments p filtered). split; [|exact Hc].
      apply in_map_iff. exists p. split; [reflexivity|].
      apply list_elem_of_In, elem_of_seqZ. lia.
Qed.

Lemma visibleComments_sound_complete_witness :
  (length (visibleComments Sample.onPageFive) <= 10)%nat
  /\ exists p, 1 <= p <= 6
               /\ In (Comment.mk 42 "n" "e" "b" 1)
                     (paginatedComments p (Sample.numbered 60)).
Proof.
  destruct (visibleComments_sound_complete Sample.onPageFive)
    as (_ & Hlen & Hpages).
  split; [exact Hlen|].
  apply (Hpages (Comment.mk 42 "n" "e" "b" 1)).
  vm_compute. do 41 right. left. reflexivity.
Defined.

(** X25. After a change of the search term the rows on screen are the first
    10 comments, or all if fewer, that the new term retains. *)
Theorem search_shows_first_page :
  forall (st : State.t) (value : string),
    value <> State.searchTerm st ->
    visibleComments (changeSearchTerm value st)
    = take 10 (filteredComments value (State.comments st)).
Proof.
  intros st value Hne. unfold visibleComments, changeSearchTerm, searchTermEffect.
  cbn [State.searchTerm State.setSearchTerm].
  destruct (String.eqb_spec (State.searchTerm st) value) as [E|_];
    [congruence|].
  cbn [State.currentPage State.searchTerm State.comments State.setCurrentPage
       State.setSearchTerm].
  rewrite paginatedComments_take_drop by lia. reflexivity.
Qed.

Lemma search_shows_first_page_witness :
  "n" <> State.searchTerm Sample.onPageFive
  /\ visibleComments (changeSearchTerm "n" Sample.onPageFive)
     = take 10 (Sample.numbered 60).
Proof.
  assert (H : "n" <> State.searchTerm Sample.onPageFive) by discriminate.
  split; [exact H|].
  exact (search_shows_first_page Sample.onPageFive "n" H).
Defined.

(** ** Padding of the draft *)

Lemma trim_twice (s : string) : JsString.trim (JsString.trim s) = JsString.trim s.
Proof.
  destruct (trim_blank_dec s) as [E|E].
  - now rewrite E.
  - now apply trimmed_fixed, trim_trimmed.
Qed.

(** X26. White space around the draft makes no difference to a save: with a
    draft that is not blank, confirming the draft and confirming the trimmed
    draft give the same state and the same storage. *)
Theorem saveEdit_ignores_padding :
  forall (JSON : Json) (id : Z) (field : Field.t)
         (st : State.t) (storage : Storage.t),
    JsString.trim (State.editValue st) <> EmptyString ->
    saveEdit JSON id field
      (State.setEditValue (JsString.trim (State.editValue st)) st, storage)
    = saveEdit JSON id field (st, storage).
Proof.
  intros JSON id field st storage Hne. unfold saveEdit.
  cbn [State.editValue State.setEditValue State.comments].
  rewrite trim_twice, (nonblank_isEmpty _ Hne).
  destruct (saveComments JSON id field _ (State.comments st) storage)
    as [[cs s1]|]; reflexivity.
Qed.

Lemma saveEdit_ignores_padding_witness :
  saveEdit codecJSON 7 Field.name
    (State.setEditValue "Bob" Sample.editing, Sample.noItem)
  = saveEdit codecJSON 7 Field.name (Sample.editing, Sample.noItem).
Proof.
  apply (saveEdit_ignores_padding codecJSON 7 Field.name Sample.editing
           Sample.noItem).
  vm_compute. discriminate.
Defined.
